(** * The OCR page ([src/pages/Index.tsx]): file intake, recognition, export

    A shallow embedding of the event handlers of the [Index] component.
    The component's [useState] cells form a record, the browser facilities
    the handlers call (object URLs, clipboard, toasts, the console, the
    document body, the recognition engine) form a second record, and every
    handler is a computation in a state monad over the pair. *)

From Stdlib Require Import ZArith NArith String Ascii List Bool Lia.
From Stdlib Require Import DecimalString DecimalPos DecimalN SpecFloat Sorted.
From stdpp Require Import base option list gmap strings.

Local Open Scope string_scope.

(** ** JavaScript values *)

(** A text buffer is a JavaScript string: a sequence of UTF-16 code units.
    Identifiers the program compares with ASCII constants (media types,
    engine phases, toast captions) stay plain strings. *)
Definition code_unit := N.
Definition jsstring := list code_unit.

(** An ASCII literal as a JavaScript string. *)
Definition js (s : string) : jsstring :=
  map N_of_ascii (list_ascii_of_string s).

(** [Array.prototype.includes] on an array of strings. *)
Definition includes (l : list string) (x : string) : bool :=
  existsb (String.eqb x) l.

(** [`${n}`] for a non-negative integer [n]. *)
Definition decimal (n : N) : string :=
  NilZero.string_of_uint (N.to_uint n).

(** A JavaScript Number is an IEEE 754 binary64 value. *)
Definition Number := spec_float.
Definition prec : Z := 53.
Definition emax : Z := 1024.

Definition Number_of_Z (n : Z) : Number := binary_normalize prec emax n 0 false.
Definition Number_mul : Number -> Number -> Number := SFmul prec emax.
Definition Number_le (x y : Number) : bool := SFleb x y.

(** The class of [\s] in a regular expression: white space and line
    terminators of ECMAScript, as code units. *)
Definition is_space (c : code_unit) : bool :=
  match c with
  | 9 | 10 | 11 | 12 | 13 | 32 | 160 | 5760 | 8232 | 8233 | 8239 | 8287
  | 12288 | 65279 => true
  | _ => (8192 <=? c)%N && (c <=? 8202)%N
  end%N.

(** [s.split(/\s+/)]: the pieces of [s] between maximal runs of white space.
    [cur] is the piece being read, reversed; [insep] tells that the last code
    unit read was white space, in which case [cur] is empty. *)
Fixpoint split_go (insep : bool) (cur : jsstring) (s : jsstring)
  : list jsstring :=
  match s with
  | [] => [rev cur]
  | c :: r =>
      if is_space c
      then if insep then split_go true cur r
           else rev cur :: split_go true [] r
      else split_go false (c :: cur) r
  end.

Definition split_ws (s : jsstring) : list jsstring := split_go false [] s.

Module Math.
(** [Math.round]: the integral Number closest to [x], the one closer to
    plus infinity at a tie; the sign of a zero result is the sign of [x]. *)
Definition round (x : Number) : Number :=
  match x with
  | S754_finite s m e =>
      if (0 <=? e)%Z then x
      else
        let h := (2 ^ (- e - 1))%Z in
        let n := ((if s then h - Z.pos m else Z.pos m + h) / (2 * h))%Z in
        if (n =? 0)%Z then S754_zero s else Number_of_Z n
  | _ => x
  end.
End Math.

(** ** The browser *)

Module File.
(** What the handlers read of a [File]. *)
Record t := mk { name : string; type : string; size : Z }.
End File.

Definition is_high_surrogate (c : code_unit) : bool :=
  ((55296 <=? c) && (c <=? 56319))%N.

Definition is_low_surrogate (c : code_unit) : bool :=
  ((56320 <=? c) && (c <=? 57343))%N.

(** Conversion of a JavaScript string to a sequence of Unicode scalar
    values (Web IDL, USVString): a surrogate pair becomes its code point, a
    surrogate without its partner becomes U+FFFD. *)
Fixpoint scalar_values (s : jsstring) : list N :=
  match s with
  | [] => []
  | c :: r =>
      if is_high_surrogate c then
        match r with
        | d :: r' =>
            if is_low_surrogate d
            then (65536 + (c - 55296) * 1024 + (d - 56320))%N
                   :: scalar_values r'
            else 65533%N :: scalar_values r
        | [] => [65533%N]
        end
      else if is_low_surrogate c then 65533%N :: scalar_values r
      else c :: scalar_values r
  end.

(** The UTF-8 bytes of a scalar value. *)
Definition utf8_encode (cp : N) : list N :=
  if (cp <=? 127)%N then [cp]
  else if (cp <=? 2047)%N then
    [192 + cp / 64; 128 + cp mod 64]%N
  else if (cp <=? 65535)%N then
    [224 + cp / 4096; 128 + (cp / 64) mod 64; 128 + cp mod 64]%N
  else
    [240 + cp / 262144; 128 + (cp / 4096) mod 64; 128 + (cp / 64) mod 64;
     128 + cp mod 64]%N.

Definition utf8 (s : jsstring) : list N :=
  flat_map utf8_encode (scalar_values s).

(** A [Blob]: its bytes and its media type. *)
Record Blob := { blob_bytes : list N; blob_type : string }.

(** [new Blob(parts, { type })] for string parts: each part is converted to
    scalar values and stored as UTF-8. *)
Definition new_Blob (parts : list jsstring) (type : string) : Blob :=
  {| blob_bytes := flat_map utf8 parts; blob_type := type |}.

(** What an object URL refers to. *)
Inductive UrlTarget :=
| OfFile (f : File.t)
| OfBlob (b : Blob).

Inductive Variant := default | destructive.

Record Toast := { title : string; description : string; variant : Variant }.

(** An anchor element. *)
Record Anchor := { href : string; download : string }.

Record Download := { saved_as : string; saved : UrlTarget }.

Module Tesseract.
(** A message passed to the [logger] option. *)
Record LoggerMessage := { status : string; progress : Number }.

(** How the promise of [recognize] settles: with [result.data.text], or
    rejected. *)
Inductive Settled :=
| Resolved (text : jsstring)
| Rejected (error : string).

(** One call of [recognize] as seen by the caller: the messages given to
    the logger, in order, then the way the promise settles. *)
Record Run := { messages : list LoggerMessage; settled : Settled }.

Definition Engine := File.t -> string -> Run.
End Tesseract.

Record Browser := {
  objectURLs : gmap string UrlTarget;  (* the live object URLs *)
  created : N;                         (* calls of URL.createObjectURL *)
  revoked : list string;               (* object URLs released, latest first *)
  clipboard : jsstring;
  toasts : list Toast;                 (* latest first *)
  console : list string;               (* console.error, latest first *)
  body : list Anchor;                  (* children added to document.body *)
  downloads : list Download;           (* latest first *)
  recognitions : list (File.t * string) (* calls of Tesseract.recognize *)
}.

(** ** The component *)

Record State := {
  dragActive : bool;
  file : option File.t;
  previewUrl : string;
  extractedText : jsstring;
  isProcessing : bool;
  language : string;
  progress : Number
}.

Record Sys := { ui : State; browser : Browser }.

Definition M (A : Type) : Type := Sys -> A * Sys.

#[global] Instance M_ret : MRet M := fun A (a : A) s => (a, s).
#[global] Instance M_bind : MBind M :=
  fun A B (f : A -> M B) (m : M A) s => let (a, s') := m s in f a s'.

Definition get_ui : M State := fun s => (ui s, s).
Definition get_browser : M Browser := fun s => (browser s, s).
Definition put_ui (u : State) : M unit :=
  fun s => (tt, {| ui := u; browser := browser s |}).
Definition put_browser (b : Browser) : M unit :=
  fun s => (tt, {| ui := ui s; browser := b |}).

(** The state a handler leaves. *)
Definition exec {A} (m : M A) (s : Sys) : Sys := snd (m s).

(** *** The setters of the [useState] cells *)

Definition setDragActive (v : bool) : M unit :=
  u ← get_ui;
  put_ui {| dragActive := v; file := file u; previewUrl := previewUrl u;
            extractedText := extractedText u; isProcessing := isProcessing u;
            language := language u; progress := progress u |}.

Definition setFile (v : option File.t) : M unit :=
  u ← get_ui;
  put_ui {| dragActive := dragActive u; file := v; previewUrl := previewUrl u;
            extractedText := extractedText u; isProcessing := isProcessing u;
            language := language u; progress := progress u |}.

Definition setPreviewUrl (v : string) : M unit :=
  u ← get_ui;
  put_ui {| dragActive := dragActive u; file := file u; previewUrl := v;
            extractedText := extractedText u; isProcessing := isProcessing u;
            language := language u; progress := progress u |}.

Definition setExtractedText (v : jsstring) : M unit :=
  u ← get_ui;
  put_ui {| dragActive := dragActive u; file := file u;
            previewUrl := previewUrl u; extractedText := v;
            isProcessing := isProcessing u; language := language u;
            progress := progress u |}.

Definition setIsProcessing (v : bool) : M unit :=
  u ← get_ui;
  put_ui {| dragActive := dragActive u; file := file u;
            previewUrl := previewUrl u; extractedText := extractedText u;
            isProcessing := v; language := language u;
            progress := progress u |}.

Definition setLanguage (v : string) : M unit :=
  u ← get_ui;
  put_ui {| dragActive := dragActive u; file := file u;
            previewUrl := previewUrl u; extractedText := extractedText u;
            isProcessing := isProcessing u; language := v;
            progress := progress u |}.

Definition setProgress (v : Number) : M unit :=
  u ← get_ui;
  put_ui {| dragActive := dragActive u; file := file u;
            previewUrl := previewUrl u; extractedText := extractedText u;
            isProcessing := isProcessing u; language := language u;
            progress := v |}.

(** *** The browser facilities the handlers call *)

Definition toast (t : Toast) : M unit :=
  b ← get_browser;
  put_browser {| objectURLs := objectURLs b; created := created b;
                 revoked := revoked b; clipboard := clipboard b;
                 toasts := t :: toasts b; console := console b;
                 body := body b; downloads := downloads b;
                 recognitions := recognitions b |}.

Definition console_error (label error : string) : M unit :=
  b ← get_browser;
  put_browser {| objectURLs := objectURLs b; created := created b;
                 revoked := revoked b; clipboard := clipboard b;
                 toasts := toasts b;
                 console := (label ++ " " ++ error) :: console b;
                 body := body b; downloads := downloads b;
                 recognitions := recognitions b |}.

Module URL.
(** The [n]-th object URL the browser hands out. *)
Definition fresh (n : N) : string := "blob:" ++ decimal n.

Definition createObjectURL (o : UrlTarget) : M string :=
  b ← get_browser;
  let url := fresh (created b) in
  put_browser {| objectURLs := <[url := o]> (objectURLs b);
                 created := N.succ (created b);
                 revoked := revoked b; clipboard := clipboard b;
                 toasts := toasts b; console := console b;
                 body := body b; downloads := downloads b;
                 recognitions := recognitions b |};;
  mret url.

(** Releasing a URL that is not live does nothing. *)
Definition revokeObjectURL (url : string) : M unit :=
  b ← get_browser;
  match objectURLs b !! url with
  | None => mret tt
  | Some _ =>
      put_browser {| objectURLs := delete url (objectURLs b);
                     created := created b;
                     revoked := url :: revoked b; clipboard := clipboard b;
                     toasts := toasts b; console := console b;
                     body := body b; downloads := downloads b;
                     recognitions := recognitions b |}
  end.
End URL.

(** [navigator.clipboard.writeText]: [true] when the write was allowed. *)
Definition clipboard_writeText (allowed : bool) (text : jsstring) : M bool :=
  if allowed then
    b ← get_browser;
    put_browser {| objectURLs := objectURLs b; created := created b;
                   revoked := revoked b; clipboard := text;
                   toasts := toasts b; console := console b;
                   body := body b; downloads := downloads b;
                   recognitions := recognitions b |};;
    mret true
  else mret false.

Definition body_appendChild (a : Anchor) : M unit :=
  b ← get_browser;
  put_browser {| objectURLs := objectURLs b; created := created b;
                 revoked := revoked b; clipboard := clipboard b;
                 toasts := toasts b; console := console b;
                 body := a :: body b; downloads := downloads b;
                 recognitions := recognitions b |}.

Definition anchor_eqb (a a' : Anchor) : bool :=
  String.eqb (href a) (href a') && String.eqb (download a) (download a').

Fixpoint remove_first (a : Anchor) (l : list Anchor) : list Anchor :=
  match l with
  | [] => []
  | x :: r => if anchor_eqb a x then r else x :: remove_first a r
  end.

Definition body_removeChild (a : Anchor) : M unit :=
  b ← get_browser;
  put_browser {| objectURLs := objectURLs b; created := created b;
                 revoked := revoked b; clipboard := clipboard b;
                 toasts := toasts b; console := console b;
                 body := remove_first a (body b); downloads := downloads b;
                 recognitions := recognitions b |}.

(** [a.click()] on an anchor with a [download] attribute saves what its
    [href] refers to under that name. *)
Definition anchor_click (a : Anchor) : M unit :=
  b ← get_browser;
  match objectURLs b !! href a with
  | None => mret tt
  | Some o =>
      put_browser {| objectURLs := objectURLs b; created := created b;
                     revoked := revoked b; clipboard := clipboard b;
                     toasts := toasts b; console := console b;
                     body := body b;
                     downloads := {| saved_as := download a; saved := o |}
                                    :: downloads b;
                     recognitions := recognitions b |}
  end.

(** The call of [Tesseract.recognize] is recorded; what the engine then does
    is a [Tesseract.Run]. *)
Definition Tesseract_recognize (f : File.t) (lang : string) : M unit :=
  b ← get_browser;
  put_browser {| objectURLs := objectURLs b; created := created b;
                 revoked := revoked b; clipboard := clipboard b;
                 toasts := toasts b; console := console b;
                 body := body b; downloads := downloads b;
                 recognitions := (f, lang) :: recognitions b |}.

(** *** The handlers *)

Definition validTypes : list string :=
  ["image/jpeg"; "image/jpg"; "image/png"; "application/pdf"].

Definition handleFile (selectedFile : File.t) : M unit :=
  if negb (includes validTypes (File.type selectedFile)) then
    toast {| title := "Invalid file type";
             description := "Please upload JPG, PNG, or PDF files only.";
             variant := destructive |}
  else if (File.size selectedFile >? 10 * 1024 * 1024)%Z then
    toast {| title := "File too large";
             description := "Please upload files smaller than 10MB.";
             variant := destructive |}
  else
    setFile (Some selectedFile);;
    url ← URL.createObjectURL (OfFile selectedFile);
    setPreviewUrl url;;
    setExtractedText [];;
    toast {| title := "File uploaded successfully";
             description :=
               "Ready to extract text. Click " ++ String (ascii_of_nat 34)
                 ("Extract Text" ++ String (ascii_of_nat 34) " to begin.");
             variant := default |}.

Definition handleDrop (files : list File.t) : M unit :=
  setDragActive false;;
  match files with
  | f :: _ => handleFile f
  | [] => mret tt
  end.

Definition handleFileInput (files : list File.t) : M unit :=
  match files with
  | f :: _ => handleFile f
  | [] => mret tt
  end.

(** [extractText] up to its [await]: [None] when it returned at once. *)
Definition extractText_begin : M (option (File.t * string)) :=
  u ← get_ui;
  match file u with
  | None => mret None
  | Some f =>
      setIsProcessing true;;
      setProgress (Number_of_Z 0);;
      setExtractedText [];;
      Tesseract_recognize f (language u);;
      mret (Some (f, language u))
  end.

(** The [logger] callback. *)
Definition logger (m : Tesseract.LoggerMessage) : M unit :=
  if String.eqb (Tesseract.status m) "recognizing text" then
    setProgress
      (Math.round (Number_mul (Tesseract.progress m) (Number_of_Z 100)))
  else mret tt.

Fixpoint loggers (ms : list Tesseract.LoggerMessage) : M unit :=
  match ms with
  | [] => mret tt
  | m :: r => logger m;; loggers r
  end.

(** [extractText] from the moment the awaited promise settles: the rest of
    the [try] block or the [catch] block, then the [finally] block. *)
Definition extractText_settle (r : Tesseract.Settled) : M unit :=
  match r with
  | Tesseract.Resolved text =>
      setExtractedText text;;
      toast {| title := "Text extracted successfully!";
               description := "You can now edit, copy, or download the text.";
               variant := default |}
  | Tesseract.Rejected error =>
      console_error "OCR Error:" error;;
      toast {| title := "Extraction failed";
               description :=
                 "There was an error processing your image. Please try again.";
               variant := destructive |}
  end;;
  setIsProcessing false;;
  setProgress (Number_of_Z 0).

Definition extractText (engine : Tesseract.Engine) : M unit :=
  job ← extractText_begin;
  match job with
  | None => mret tt
  | Some (f, lang) =>
      loggers (Tesseract.messages (engine f lang));;
      extractText_settle (Tesseract.settled (engine f lang))
  end.

(** [allowed] is the platform's answer to the clipboard write. *)
Definition copyToClipboard (allowed : bool) : M unit :=
  u ← get_ui;
  match extractedText u with
  | [] => mret tt
  | _ :: _ =>
      ok ← clipboard_writeText allowed (extractedText u);
      if ok : bool then
        toast {| title := "Text copied!";
                 description :=
                   "The extracted text has been copied to your clipboard.";
                 variant := default |}
      else
        toast {| title := "Copy failed";
                 description := "Unable to copy text to clipboard.";
                 variant := destructive |}
  end.

(** [now] is the value of [Date.now()]. *)
Definition downloadText (now : N) : M unit :=
  u ← get_ui;
  match extractedText u with
  | [] => mret tt
  | _ :: _ =>
      let blob := new_Blob [extractedText u] "text/plain" in
      url ← URL.createObjectURL (OfBlob blob);
      let a := {| href := url;
                  download := "extracted-text-" ++ decimal now ++ ".txt" |} in
      body_appendChild a;;
      anchor_click a;;
      body_removeChild a;;
      URL.revokeObjectURL url;;
      toast {| title := "Download started";
               description := "Your text file is being downloaded.";
               variant := default |}
  end.

(** What the page shows under the text area, when the buffer is not empty:
    the two numbers of "N words, M characters". *)
Definition displayed_counts (u : State) : option (nat * nat) :=
  match extractedText u with
  | [] => None
  | _ :: _ =>
      Some (length (split_ws (extractedText u)), length (extractedText u))
  end.

(** The state of a freshly mounted component in a fresh page. *)
Definition initial : Sys :=
  {| ui := {| dragActive := false; file := None; previewUrl := "";
              extractedText := []; isProcessing := false;
              language := "eng"; progress := Number_of_Z 0 |};
     browser := {| objectURLs := ∅; created := 0; revoked := [];
                   clipboard := []; toasts := []; console := [];
                   body := []; downloads := []; recognitions := [] |} |}.

(** ** Validation outcomes *)

(** The two ways [handleFile] turns a file down, and the toast that reports
    each. *)
Inductive Reason := unsupported_type | too_large.

Definition rejection (r : Reason) : Toast :=
  match r with
  | unsupported_type =>
      {| title := "Invalid file type";
         description := "Please upload JPG, PNG, or PDF files only.";
         variant := destructive |}
  | too_large =>
      {| title := "File too large";
         description := "Please upload files smaller than 10MB.";
         variant := destructive |}
  end.

Definition copy_failed : Toast :=
  {| title := "Copy failed";
     description := "Unable to copy text to clipboard.";
     variant := destructive |}.

(** The media types the specification lists. *)
Definition listed_types : list string :=
  ["image/jpeg"; "image/png"; "application/pdf"].

(** The number of maximal runs of code units that are not white space: the
    white-space-delimited non-empty tokens of the specification. [inword]
    tells that the previous code unit belongs to a token. *)
Fixpoint count_tokens (inword : bool) (s : jsstring) : nat :=
  match s with
  | [] => 0
  | c :: r =>
      if is_space c then count_tokens false r
      else (if inword then 0 else 1) + count_tokens true r
  end.

Definition word_tokens (s : jsstring) : nat := count_tokens false s.

(** The toast that reports an accepted file. *)
Definition accepted_toast : Toast :=
  {| title := "File uploaded successfully";
     description :=
       "Ready to extract text. Click " ++ String (ascii_of_nat 34)
         ("Extract Text" ++ String (ascii_of_nat 34) " to begin.");
     variant := default |}.

(** What [handleFile] does with a file it accepts. *)
Definition adopt (f : File.t) : M unit :=
  setFile (Some f);;
  url ← URL.createObjectURL (OfFile f);
  setPreviewUrl url;;
  setExtractedText [];;
  toast accepted_toast.

(** The name [downloadText] saves under. *)
Definition export_name (now : N) : string :=
  "extracted-text-" ++ decimal now ++ ".txt".

(** The state of the component when its buffer holds [T]. *)
Definition showing (T : jsstring) : State := ui (exec (setExtractedText T) initial).

(** ** Progress: fractions and percentages *)

(** [m.status === 'recognizing text']. *)
Definition recognizing (m : Tesseract.LoggerMessage) : bool :=
  String.eqb (Tesseract.status m) "recognizing text".

(** The value of [progress] after each message of a run, in order. *)
Fixpoint progress_history (ms : list Tesseract.LoggerMessage) (s : Sys)
  : list Number :=
  match ms with
  | [] => []
  | m :: r =>
      progress (ui (exec (logger m) s))
        :: progress_history r (exec (logger m) s)
  end.

(** The fractions of the messages that report recognition, in order. *)
Definition fractions (ms : list Tesseract.LoggerMessage) : list Number :=
  map Tesseract.progress (List.filter recognizing ms).

(** [x === y] on Numbers. *)
Definition Number_eq (x y : Number) : bool := SFeqb x y.

(** A fractional completion: a binary64 value between 0 and 1. *)
Definition is_fraction (p : Number) : bool :=
  valid_binary prec emax p
  && Number_le (Number_of_Z 0) p && Number_le p (Number_of_Z 1).

(** An integer percentage: a Number equal to an integer from 0 to 100. *)
Definition is_percentage (v : Number) : Prop :=
  exists n : Z, (0 <= n <= 100)%Z /\ Number_eq v (Number_of_Z n) = true.

(** What the logger publishes for the fraction [p]. *)
Definition percent (p : Number) : Number :=
  Math.round (Number_mul p (Number_of_Z 100)).

(** Rounding [X / 2^n] to the nearest integer, ties to even. *)
Definition rne (X n : Z) : Z :=
  let q := (X / 2 ^ n)%Z in
  let r2 := (2 * (X mod 2 ^ n))%Z in
  if (r2 <? 2 ^ n)%Z then q
  else if (2 ^ n <? r2)%Z then (q + 1)%Z
  else if Z.even q then q else (q + 1)%Z.

(** The exponent of the grid on which binary64 places a positive integer
    [X] of some unit: 53 significant bits, and no finer than [2^lo]. *)
Definition grid (lo X : Z) : Z := Z.max (Z.log2 X + 1 - 53) lo.

(** [X] rounded to its grid, in the unit of [X]. *)
Definition rounded (lo X : Z) : Z := (rne X (grid lo X) * 2 ^ grid lo X)%Z.

(** A non-negative binary64 value counted in units of [2^-1074]. *)
Definition scaled (p : Number) : Z :=
  match p with
  | S754_finite false m e => (Z.pos m * 2 ^ (e + 1074))%Z
  | _ => 0%Z
  end.

(** The integer [Math.round (p * 100)], from the value of [p]: the exact
    product in units of [2^-1120], rounded to binary64, plus one half,
    truncated. *)
Definition percent_Z (p : Number) : Z :=
  ((rounded 46 (7036874417766400 * scaled p) + 2 ^ 1119) / 2 ^ 1120)%Z.

Definition sign_of (p : Number) : bool :=
  match p with
  | S754_zero s | S754_infinity s | S754_finite s _ _ => s
  | S754_nan => false
  end.

(** [v] is the integer [n], the zero of either sign for 0. *)
Definition shows (v : Number) (n : Z) : Prop :=
  v = Number_of_Z n \/ (n = 0%Z /\ v = S754_zero true).

(** The integers from 0 to 100. *)
Definition percentages : list Z := map Z.of_nat (seq 0 101).

(** *** Reading a saved file back *)

Definition is_continuation (b : N) : bool := ((128 <=? b) && (b <=? 191))%N.

(** Reading UTF-8 bytes back as scalar values; [None] on a malformed
    sequence. *)
Fixpoint utf8_decode (bs : list N) : option (list N) :=
  match bs with
  | [] => Some []
  | b :: r =>
      if (b <=? 127)%N then option_map (cons b) (utf8_decode r)
      else if ((194 <=? b) && (b <=? 223))%N then
        match r with
        | b2 :: r' =>
            if is_continuation b2
            then option_map (cons ((b - 192) * 64 + (b2 - 128))%N)
                   (utf8_decode r')
            else None
        | _ => None
        end
      else if ((224 <=? b) && (b <=? 239))%N then
        match r with
        | b2 :: b3 :: r' =>
            if is_continuation b2 && is_continuation b3
            then option_map
                   (cons ((b - 224) * 4096 + (b2 - 128) * 64 + (b3 - 128))%N)
                   (utf8_decode r')
            else None
        | _ => None
        end
      else if ((240 <=? b) && (b <=? 244))%N then
        match r with
        | b2 :: b3 :: b4 :: r' =>
            if is_continuation b2 && is_continuation b3 && is_continuation b4
            then option_map
                   (cons ((b - 240) * 262144 + (b2 - 128) * 4096
                          + (b3 - 128) * 64 + (b4 - 128))%N)
                   (utf8_decode r')
            else None
        | _ => None
        end
      else None
  end.

(** The UTF-16 code units of a scalar value. *)
Definition utf16_encode (cp : N) : jsstring :=
  if (cp <? 65536)%N then [cp]
  else [55296 + (cp - 65536) / 1024; 56320 + (cp - 65536) mod 1024]%N.

(** Reading a saved file back into a JavaScript string. *)
Definition utf16_of_utf8 (bs : list N) : option jsstring :=
  option_map (flat_map utf16_encode) (utf8_decode bs).

(** A string of 16-bit code units in which every surrogate is part of a
    pair. *)
Fixpoint well_formed (s : jsstring) : bool :=
  match s with
  | [] => true
  | c :: r =>
      if is_high_surrogate c then
        match r with
        | d :: r' => is_low_surrogate d && well_formed r'
        | [] => false
        end
      else negb (is_low_surrogate c) && (c <? 65536)%N && well_formed r
  end.

(** 1 when the text starts, respectively ends, with white space. *)
Definition leading_space (s : jsstring) : nat :=
  match s with
  | c :: _ => if is_space c then 1 else 0
  | [] => 0
  end.

Definition trailing_space (s : jsstring) : nat :=
  if is_space (List.last s 0%N) then 1 else 0.

(** ** The rest of the component *)

(** The entries of the language menu: code and name. *)
Definition languages : list (string * string) :=
  [ ("eng", "English"); ("hin", "Hindi"); ("spa", "Spanish");
    ("fra", "French"); ("deu", "German"); ("ara", "Arabic");
    ("chi_sim", "Chinese (Simplified)"); ("jpn", "Japanese") ].

(** [handleDrag], given [e.type]; [preventDefault] and [stopPropagation]
    act on the event only. *)
Definition handleDrag (type : string) : M unit :=
  if String.eqb type "dragenter" || String.eqb type "dragover" then
    setDragActive true
  else if String.eqb type "dragleave" then
    setDragActive false
  else mret tt.

(** *** What the component renders *)

Inductive PreviewPane :=
| PdfPlaceholder (name : string)      (* "PDF: " and the file name *)
| ImagePreview (src : string).        (* an [img] of the preview URL *)

Inductive ButtonLabel :=
| Extracting (percent : Number)       (* "Extracting... N%" *)
| ExtractTextLabel.                   (* "Extract Text" *)

Record PreviewSection := {
  pane : PreviewPane;
  button_disabled : bool;
  button_label : ButtonLabel
}.

Record View := {
  select_value : string;
  select_items : list (string * string);
  drop_zone_highlighted : bool;
  preview_section : option PreviewSection;
  export_buttons : bool;
  textarea_value : jsstring;
  textarea_disabled : bool;
  counts : option (nat * nat)
}.

Definition render (u : State) : View :=
  {| select_value := language u;
     select_items := languages;
     drop_zone_highlighted := dragActive u;
     preview_section :=
       if String.eqb (previewUrl u) "" then None
       else
         Some {| pane :=
                   match file u with
                   | Some f =>
                       if String.eqb (File.type f) "application/pdf"
                       then PdfPlaceholder (File.name f)
                       else ImagePreview (previewUrl u)
                   | None => ImagePreview (previewUrl u)
                   end;
                 button_disabled := isProcessing u;
                 button_label :=
                   if isProcessing u then Extracting (progress u)
                   else ExtractTextLabel |};
     export_buttons :=
       match extractedText u with [] => false | _ :: _ => true end;
     textarea_value := extractedText u;
     textarea_disabled := isProcessing u;
     counts := displayed_counts u |}.

(** *** Sessions *)

(** What can happen to the component: the events its handlers are bound
    to, and the two ways a pending call of the engine calls back. *)
Inductive Event :=
| DragEvent (type : string)                 (* onDragEnter/Leave/Over *)
| DropEvent (files : list File.t)           (* onDrop *)
| InputChange (files : list File.t)         (* the file input's onChange *)
| LanguageChange (code : string)            (* onValueChange *)
| TextChange (value : jsstring)             (* the text area's onChange *)
| ExtractClick                              (* extractText, up to its await *)
| LoggerCall (m : Tesseract.LoggerMessage)  (* the logger option *)
| ExtractSettle (r : Tesseract.Settled)     (* extractText, after its await *)
| CopyClick (allowed : bool)
| DownloadClick (now : N).

Definition handle (e : Event) : M unit :=
  match e with
  | DragEvent type => handleDrag type
  | DropEvent files => handleDrop files
  | InputChange files => handleFileInput files
  | LanguageChange code => setLanguage code
  | TextChange value => setExtractedText value
  | ExtractClick => extractText_begin;; mret tt
  | LoggerCall m => logger m
  | ExtractSettle r => extractText_settle r
  | CopyClick allowed => copyToClipboard allowed
  | DownloadClick now => downloadText now
  end.

(** The state after a sequence of events. *)
Fixpoint session (es : list Event) (s : Sys) : Sys :=
  match es with
  | [] => s
  | e :: r => session r (exec (handle e) s)
  end.

(** A file that passes both rules of [handleFile]. *)
Definition passes (f : File.t) : Prop :=
  In (File.type f) validTypes /\ (File.size f <= 10485760)%Z.

(** The toasts of a given title raised so far. *)
Definition raised (caption : string) (b : Browser) : nat :=
  length (List.filter (fun t => String.eqb (title t) caption) (toasts b)).

(** What every session keeps true. *)
Record consistent (s : Sys) : Prop := {
  live_fresh : forall url o,
    objectURLs (browser s) !! url = Some o ->
    exists k f, (k < created (browser s))%N /\ url = URL.fresh k /\
                o = OfFile f /\ passes f;
  preview_live :
    match file (ui s) with
    | None => previewUrl (ui s) = ""
    | Some f =>
        objectURLs (browser s) !! previewUrl (ui s) = Some (OfFile f) /\
        passes f
    end;
  body_clean : body (browser s) = [];
  urls_accounted :
    (N.of_nat (size (objectURLs (browser s)))
     + N.of_nat (length (revoked (browser s))))%N = created (browser s);
  uploads_live :
    size (objectURLs (browser s))
    = raised "File uploaded successfully" (browser s);
  downloads_released :
    length (revoked (browser s)) = length (downloads (browser s)) /\
    length (downloads (browser s)) = raised "Download started" (browser s);
  recognitions_pass :
    Forall (fun job => passes (fst job)) (recognitions (browser s))
}.

(** *** Sessions driven through the rendered controls *)

(** A running page: the component and browser, and the calls of the engine
    that have not settled yet, each with the messages it still has to
    deliver. *)
Record Live := { sys : Sys; pending : list Tesseract.Run }.

(** One step of a running page. A user event needs its control to be
    rendered and enabled; the engine delivers the next message of a pending
    call, or settles a call that has delivered all of them. *)
Inductive ui_step : Live -> Live -> Prop :=
| step_drag (l : Live) (type : string) :
    ui_step l {| sys := exec (handleDrag type) (sys l); pending := pending l |}
| step_drop (l : Live) (files : list File.t) :
    ui_step l {| sys := exec (handleDrop files) (sys l); pending := pending l |}
| step_input (l : Live) (files : list File.t) :
    ui_step l {| sys := exec (handleFileInput files) (sys l);
                 pending := pending l |}
| step_language (l : Live) (code : string) :
    In code (map fst (select_items (render (ui (sys l))))) ->
    ui_step l {| sys := exec (setLanguage code) (sys l); pending := pending l |}
| step_text (l : Live) (value : jsstring) :
    textarea_disabled (render (ui (sys l))) = false ->
    ui_step l {| sys := exec (setExtractedText value) (sys l);
                 pending := pending l |}
| step_copy (l : Live) (allowed : bool) :
    export_buttons (render (ui (sys l))) = true ->
    ui_step l {| sys := exec (copyToClipboard allowed) (sys l);
                 pending := pending l |}
| step_download (l : Live) (now : N) :
    export_buttons (render (ui (sys l))) = true ->
    ui_step l {| sys := exec (downloadText now) (sys l); pending := pending l |}
| step_extract (l : Live) (engine : Tesseract.Engine) (p : PreviewSection) :
    preview_section (render (ui (sys l))) = Some p ->
    button_disabled p = false ->
    ui_step l
      {| sys := exec extractText_begin (sys l);
         pending :=
           match fst (extractText_begin (sys l)) with
           | Some (f, lang) => engine f lang :: pending l
           | None => pending l
           end |}
| step_logger (l : Live) (before after : list Tesseract.Run)
    (m : Tesseract.LoggerMessage) (ms : list Tesseract.LoggerMessage)
    (r : Tesseract.Settled) :
    pending l
      = (before ++ {| Tesseract.messages := m :: ms; Tesseract.settled := r |}
                     :: after)%list ->
    ui_step l
      {| sys := exec (logger m) (sys l);
         pending :=
           (before ++ {| Tesseract.messages := ms; Tesseract.settled := r |}
                        :: after)%list |}
| step_settle (l : Live) (before after : list Tesseract.Run)
    (r : Tesseract.Settled) :
    pending l
      = (before ++ {| Tesseract.messages := []; Tesseract.settled := r |}
                     :: after)%list ->
    ui_step l
      {| sys := exec (extractText_settle r) (sys l);
         pending := (before ++ after)%list |}.

(** The running pages a freshly loaded one can become. *)
Inductive ui_reachable : Live -> Prop :=
| reach_initial : ui_reachable {| sys := initial; pending := [] |}
| reach_step (l l' : Live) :
    ui_reachable l -> ui_step l l' -> ui_reachable l'.

(** A handler that neither starts nor ends a job, nor changes the
    language. *)
Definition quiet (h : M unit) : Prop :=
  forall s : Sys,
    isProcessing (ui (exec h s)) = isProcessing (ui s) /\
    language (ui (exec h s)) = language (ui s) /\
    recognitions (browser (exec h s)) = recognitions (browser s).

(** What every running page keeps true. *)
Record ui_invariant (l : Live) : Prop := {
  inv_consistent : consistent (sys l);
  inv_one_job : length (pending l) <= 1;
  inv_flag : isProcessing (ui (sys l)) = true <-> pending l <> [];
  inv_language : In (language (ui (sys l))) (map fst languages);
  inv_languages :
    Forall (fun job => In (snd job) (map fst languages))
      (recognitions (browser (sys l)))
}.

(** ** Sample inputs *)

Definition scan_png : File.t := File.mk "scan.png" "image/png" 5000000.
Definition photo_jpeg : File.t := File.mk "photo.jpeg" "image/jpeg" 2048.
Definition photo_jpg : File.t := File.mk "photo.jpg" "image/jpg" 2048.
Definition big_jpeg : File.t := File.mk "big.jpeg" "image/jpeg" 12582912.
Definition big_gif : File.t := File.mk "big.gif" "image/gif" 12582912.

Definition half : Number := S754_finite false 4503599627370496 (-53).

Definition engine_reads (text : jsstring) : Tesseract.Engine :=
  fun _ _ =>
    {| Tesseract.messages :=
         [ {| Tesseract.status := "loading tesseract core";
              Tesseract.progress := Number_of_Z 1 |};
           {| Tesseract.status := "recognizing text";
              Tesseract.progress := half |};
           {| Tesseract.status := "recognizing text";
              Tesseract.progress := Number_of_Z 1 |} ];
       Tesseract.settled := Tesseract.Resolved text |}.

Definition engine_fails : Tesseract.Engine :=
  fun _ _ =>
    {| Tesseract.messages :=
         [ {| Tesseract.status := "recognizing text";
              Tesseract.progress := half |} ];
       Tesseract.settled := Tesseract.Rejected "worker terminated" |}.

(** A session in which [scan_png] was accepted and read as "abc". *)
Definition after_abc : Sys :=
  exec (extractText (engine_reads (js "abc"))) (exec (handleFile scan_png) initial).

(** A freshly loaded page, the page after [scan_png] was dropped on it, and
    the page after Extract was then clicked. *)
Definition page_loaded : Live := {| sys := initial; pending := [] |}.

Definition page_dropped : Live :=
  {| sys := exec (handleDrop [scan_png]) (sys page_loaded);
     pending := pending page_loaded |}.

Definition page_extracting : Live :=
  {| sys := exec extractText_begin (sys page_dropped);
     pending :=
       match fst (extractText_begin (sys page_dropped)) with
       | Some (f, lang) => engine_reads (js "abc") f lang :: pending page_dropped
       | None => pending page_dropped
       end |}.

(** ** Basic facts about the monad and the setters *)

Lemma exec_bind {A B} (m : M A) (k : A -> M B) (s : Sys) :
  exec (m ≫= k) s = exec (k (fst (m s))) (exec m s).
Proof. unfold exec, mbind, M_bind. destruct (m s); reflexivity. Qed.

Lemma Sys_eta (s : Sys) : {| ui := ui s; browser := browser s |} = s.
Proof. destruct s; reflexivity. Qed.

Lemma setProgress_same (s : Sys) : setProgress (progress (ui s)) s = (tt, s).
Proof. destruct s as [[] ?]; reflexivity. Qed.

Lemma setProgress_twice (v w : Number) (s : Sys) :
  setProgress w (exec (setProgress v) s) = setProgress w s.
Proof. reflexivity. Qed.

(** A logger message either leaves the state alone or writes [progress]. *)
Lemma logger_writes_progress (m : Tesseract.LoggerMessage) (s : Sys) :
  exists v, logger m s = setProgress v s.
Proof.
  unfold logger. destruct (String.eqb _ _).
  - eexists; reflexivity.
  - exists (progress (ui s)). symmetry; apply setProgress_same.
Qed.

Lemma loggers_write_progress (ms : list Tesseract.LoggerMessage) (s : Sys) :
  exists v, loggers ms s = setProgress v s.
Proof.
  revert s; induction ms as [|m ms IH]; intros s.
  - exists (progress (ui s)). symmetry; apply setProgress_same.
  - destruct (logger_writes_progress m s) as [v Hv].
    destruct (IH (exec (setProgress v) s)) as [w Hw].
    exists w. cbn [loggers]. unfold mbind, M_bind at 1.
    rewrite Hv. cbn. change (loggers ms (exec (setProgress v) s) = setProgress w s).
    rewrite Hw. reflexivity.
Qed.

Lemma run_bind {A B} (m : M A) (k : A -> M B) (s : Sys) :
  (m ≫= k) s = k (fst (m s)) (snd (m s)).
Proof. unfold mbind, M_bind. destruct (m s); reflexivity. Qed.

Lemma extractText_begin_some (s : Sys) (f : File.t) :
  file (ui s) = Some f ->
  extractText_begin s = (Some (f, language (ui s)), exec extractText_begin s).
Proof.
  intros Hf. unfold exec, extractText_begin.
  rewrite run_bind. cbn [get_ui fst snd]. rewrite Hf. reflexivity.
Qed.

Lemma extractText_begin_none (s : Sys) :
  file (ui s) = None -> extractText_begin s = (None, s).
Proof.
  intros Hf. unfold extractText_begin.
  rewrite run_bind. cbn [get_ui fst snd]. rewrite Hf. reflexivity.
Qed.

(** [extractText] on a state that holds a file, step by step. *)
Lemma extractText_unfold (engine : Tesseract.Engine) (s : Sys) (f : File.t) :
  file (ui s) = Some f ->
  exec (extractText engine) s =
  exec (extractText_settle (Tesseract.settled (engine f (language (ui s)))))
    (exec (loggers (Tesseract.messages (engine f (language (ui s)))))
       (exec extractText_begin s)).
Proof.
  intros Hf. unfold extractText. unfold exec at 1.
  rewrite run_bind, (extractText_begin_some s f Hf). cbn [fst snd].
  rewrite run_bind. reflexivity.
Qed.

(** What [extractText] leaves when the engine call was made, in terms of the
    state its synchronous part left: the loggers wrote only [progress]. *)
Lemma extractText_shape (engine : Tesseract.Engine) (s : Sys) (f : File.t) :
  file (ui s) = Some f ->
  exists v,
    exec (extractText engine) s =
    exec (extractText_settle (Tesseract.settled (engine f (language (ui s)))))
      (exec (setProgress v) (exec extractText_begin s)).
Proof.
  intros Hf. rewrite (extractText_unfold engine s f Hf).
  destruct (loggers_write_progress
              (Tesseract.messages (engine f (language (ui s))))
              (exec extractText_begin s)) as [v Hv].
  exists v. unfold exec at 2. rewrite Hv. reflexivity.
Qed.

Lemma extractText_begin_clears (s : Sys) (f : File.t) :
  file (ui s) = Some f ->
  extractedText (ui (exec extractText_begin s)) = [].
Proof.
  intros Hf. unfold exec, extractText_begin.
  rewrite run_bind. cbn [get_ui fst snd]. rewrite Hf. reflexivity.
Qed.

(** ** The claims *)

(** C1, as stated, fails: in the session [after_abc] a recognition succeeded
    and left the text "abc"; extraction is triggered again, the engine call
    fails, and the text is then empty, not "abc". *)
Lemma failed_reextraction_counterexample :
  file (ui after_abc) = Some scan_png /\
  extractedText (ui after_abc) = js "abc" /\
  Tesseract.settled (engine_fails scan_png (language (ui after_abc)))
    = Tesseract.Rejected "worker terminated" /\
  extractedText (ui (exec (extractText engine_fails) after_abc))
    <> extractedText (ui after_abc).
Proof.
  split; [vm_compute; reflexivity|].
  split; [vm_compute; reflexivity|].
  split; [vm_compute; reflexivity|].
  vm_compute. discriminate.
Qed.

(** C1, amended: when the extract operation is triggered on an accepted file
    and the engine call fails, the text buffer is empty after the call
    settles, whatever it held before: [extractText] empties the buffer before
    it calls the engine, and the failure path does not write it. *)
Theorem failed_extraction_leaves_empty_text
    (engine : Tesseract.Engine) (s : Sys) (f : File.t) (error : string) :
  file (ui s) = Some f ->
  Tesseract.settled (engine f (language (ui s))) = Tesseract.Rejected error ->
  extractedText (ui (exec (extractText engine) s)) = [].
Proof.
  intros Hf Hr. destruct (extractText_shape engine s f Hf) as [v ->].
  rewrite Hr. pose proof (extractText_begin_clears s f Hf) as Hc.
  cbn. exact Hc.
Qed.

Lemma failed_extraction_leaves_empty_text_witness :
  extractedText (ui (exec (extractText engine_fails) after_abc)) = [].
Proof.
  apply (failed_extraction_leaves_empty_text engine_fails after_abc scan_png
           "worker terminated"); vm_compute; reflexivity.
Defined.

(** C4: when the engine call succeeds with the text [S], the text buffer is
    exactly [S] once the call has settled; the continuation writes the
    string it was given, unchanged, from whatever state it resumes in. *)
Theorem successful_extraction_stores_text_verbatim
    (engine : Tesseract.Engine) (s : Sys) (f : File.t) (S : jsstring) :
  file (ui s) = Some f ->
  Tesseract.settled (engine f (language (ui s))) = Tesseract.Resolved S ->
  extractedText (ui (exec (extractText engine) s)) = S /\
  forall s' : Sys,
    extractedText (ui (exec (extractText_settle (Tesseract.Resolved S)) s')) = S.
Proof.
  intros Hf Hr. split.
  - destruct (extractText_shape engine s f Hf) as [v ->].
    rewrite Hr. reflexivity.
  - intros s'. reflexivity.
Qed.

Lemma successful_extraction_stores_text_verbatim_witness :
  extractedText
    (ui (exec (extractText (engine_reads [32; 97; 32; 32; 98; 10; 10]%N))
           (exec (handleFile scan_png) initial)))
  = [32; 97; 32; 32; 98; 10; 10]%N /\
  forall s' : Sys,
    extractedText
      (ui (exec (extractText_settle
                   (Tesseract.Resolved [32; 97; 32; 32; 98; 10; 10]%N)) s'))
    = [32; 97; 32; 32; 98; 10; 10]%N.
Proof.
  apply (successful_extraction_stores_text_verbatim
           (engine_reads [32; 97; 32; 32; 98; 10; 10]%N)
           (exec (handleFile scan_png) initial) scan_png);
    vm_compute; reflexivity.
Defined.

(** C7: whether the engine call succeeds or fails, once the call has settled
    [progress] is 0 and [isProcessing] is false; the [finally] block does so
    from whatever state the continuation resumes in. *)
Theorem extraction_settles_clean
    (engine : Tesseract.Engine) (s : Sys) (f : File.t) :
  file (ui s) = Some f ->
  (progress (ui (exec (extractText engine) s)) = Number_of_Z 0 /\
   isProcessing (ui (exec (extractText engine) s)) = false) /\
  forall (r : Tesseract.Settled) (s' : Sys),
    progress (ui (exec (extractText_settle r) s')) = Number_of_Z 0 /\
    isProcessing (ui (exec (extractText_settle r) s')) = false.
Proof.
  intros Hf.
  assert (Hsettle : forall (r : Tesseract.Settled) (s' : Sys),
    progress (ui (exec (extractText_settle r) s')) = Number_of_Z 0 /\
    isProcessing (ui (exec (extractText_settle r) s')) = false).
  { intros [text|error] s'; split; reflexivity. }
  split; [|exact Hsettle].
  destruct (extractText_shape engine s f Hf) as [v ->]. apply Hsettle.
Qed.

Lemma extraction_settles_clean_witness :
  (progress (ui (exec (extractText engine_fails) after_abc)) = Number_of_Z 0 /\
   isProcessing (ui (exec (extractText engine_fails) after_abc)) = false) /\
  forall (r : Tesseract.Settled) (s' : Sys),
    progress (ui (exec (extractText_settle r) s')) = Number_of_Z 0 /\
    isProcessing (ui (exec (extractText_settle r) s')) = false.
Proof.
  apply (extraction_settles_clean engine_fails after_abc scan_png).
  vm_compute; reflexivity.
Defined.

(** C10: with no accepted file, [extractText] returns at once: the state is
    the one it found (progress, processing flag and text included) and no
    call of the engine was made. *)
Theorem extract_without_file_does_nothing
    (engine : Tesseract.Engine) (s : Sys) :
  file (ui s) = None ->
  extractText engine s = (tt, s) /\
  recognitions (browser (exec (extractText engine) s))
    = recognitions (browser s).
Proof.
  intros Hf.
  assert (H : extractText engine s = (tt, s)).
  { unfold extractText. rewrite run_bind, (extractText_begin_none s Hf).
    reflexivity. }
  split; [exact H|]. unfold exec. rewrite H. reflexivity.
Qed.

Lemma extract_without_file_does_nothing_witness :
  extractText engine_fails initial = (tt, initial) /\
  recognitions (browser (exec (extractText engine_fails) initial))
    = recognitions (browser initial).
Proof.
  apply (extract_without_file_does_nothing engine_fails initial).
  vm_compute; reflexivity.
Defined.

(** *** Intake *)

Lemma includes_In (l : list string) (x : string) :
  includes l x = true <-> In x l.
Proof.
  unfold includes. rewrite existsb_exists. split.
  - intros (y & Hy & E). apply String.eqb_eq in E. now subst.
  - intros H. exists x. split; [exact H | apply String.eqb_refl].
Qed.

Lemma includes_not_In (l : list string) (x : string) :
  includes l x = false <-> ~ In x l.
Proof.
  rewrite <- includes_In. destruct (includes l x); split; intros H;
    try reflexivity; try discriminate; try (intros E; discriminate).
  exfalso; apply H; reflexivity.
Qed.

Lemma handleFile_unsupported (f : File.t) (s : Sys) :
  ~ In (File.type f) validTypes ->
  handleFile f s = toast (rejection unsupported_type) s.
Proof.
  intros H. apply includes_not_In in H. unfold handleFile. rewrite H.
  reflexivity.
Qed.

Lemma handleFile_too_large (f : File.t) (s : Sys) :
  In (File.type f) validTypes -> (10485760 < File.size f)%Z ->
  handleFile f s = toast (rejection too_large) s.
Proof.
  intros H Hs. apply includes_In in H. unfold handleFile. rewrite H.
  replace (File.size f >? 10 * 1024 * 1024)%Z with true
    by (symmetry; apply Z.gtb_lt; lia).
  reflexivity.
Qed.

Lemma handleFile_accepts (f : File.t) (s : Sys) :
  In (File.type f) validTypes -> (File.size f <= 10485760)%Z ->
  handleFile f s = adopt f s.
Proof.
  intros H Hs. apply includes_In in H. unfold handleFile. rewrite H.
  replace (File.size f >? 10 * 1024 * 1024)%Z with false
    by (symmetry; rewrite Z.gtb_ltb; apply Z.ltb_ge; lia).
  reflexivity.
Qed.

Lemma adopt_state (f : File.t) (s : Sys) :
  file (ui (exec (adopt f) s)) = Some f /\
  previewUrl (ui (exec (adopt f) s)) = URL.fresh (created (browser s)) /\
  extractedText (ui (exec (adopt f) s)) = [] /\
  objectURLs (browser (exec (adopt f) s))
    = <[URL.fresh (created (browser s)) := OfFile f]> (objectURLs (browser s)) /\
  created (browser (exec (adopt f) s)) = N.succ (created (browser s)) /\
  revoked (browser (exec (adopt f) s)) = revoked (browser s) /\
  toasts (browser (exec (adopt f) s)) = accepted_toast :: toasts (browser s).
Proof. repeat split; reflexivity. Qed.

(** [handleFile] never releases an object URL, whatever it is given. *)
Lemma handleFile_never_revokes (f : File.t) (s : Sys) :
  revoked (browser (exec (handleFile f) s)) = revoked (browser s).
Proof.
  unfold exec, handleFile.
  destruct (negb _); [reflexivity|].
  destruct (_ >? _)%Z; reflexivity.
Qed.

(** Releasing an object URL a second time changes nothing. *)
Lemma revokeObjectURL_twice (url : string) (s : Sys) :
  exec (URL.revokeObjectURL url) (exec (URL.revokeObjectURL url) s)
  = exec (URL.revokeObjectURL url) s.
Proof.
  unfold exec, URL.revokeObjectURL.
  rewrite !run_bind. cbn [get_browser fst snd].
  destruct (objectURLs (browser s) !! url) eqn:E.
  - cbn. rewrite lookup_delete_eq. reflexivity.
  - cbn. rewrite E. reflexivity.
Qed.

(** C2, at a failing input: in the session [after_abc] the preview of
    [scan_png] is the object URL "blob:0". Accepting [photo_jpeg] empties the
    text buffer and moves the preview to a new object URL, but "blob:0" is
    still live and nothing was released: two acquisitions, no release. *)
Theorem superseded_preview_is_not_released :
  previewUrl (ui after_abc) = "blob:0" /\
  extractedText (ui after_abc) = js "abc" /\
  extractedText (ui (exec (handleFile photo_jpeg) after_abc)) = [] /\
  previewUrl (ui (exec (handleFile photo_jpeg) after_abc)) = "blob:1" /\
  objectURLs (browser (exec (handleFile photo_jpeg) after_abc)) !! "blob:0"
    = Some (OfFile scan_png) /\
  created (browser (exec (handleFile photo_jpeg) after_abc)) = 2%N /\
  revoked (browser (exec (handleFile photo_jpeg) after_abc)) = [].
Proof. repeat (split; [vm_compute; reflexivity|]). vm_compute; reflexivity. Qed.

(** C3, as stated, fails: "image/jpg" is outside the three listed media
    types, yet [handleFile] accepts a file that declares it: the file becomes
    the current one and no rejection is reported. *)
Lemma type_rule_counterexample :
  ~ In (File.type photo_jpg) listed_types /\
  file (ui (exec (handleFile photo_jpg) initial)) = Some photo_jpg /\
  toasts (browser (exec (handleFile photo_jpg) initial)) = [accepted_toast].
Proof.
  split; [|split; vm_compute; reflexivity].
  cbn. intros [H|[H|[H|[]]]]; discriminate.
Qed.

(** C3, amended: the accepted media types are image/jpeg, image/jpg,
    image/png and application/pdf. A candidate whose declared type is outside
    these four is turned down as [unsupported_type]: the only effect is the
    toast, the component state and the object URLs are as before. A
    candidate whose declared type is one of the four is not turned down by
    the type rule. *)
Theorem type_rule (f : File.t) (s : Sys) :
  (~ In (File.type f) validTypes ->
     exec (handleFile f) s = exec (toast (rejection unsupported_type)) s /\
     ui (exec (handleFile f) s) = ui s /\
     objectURLs (browser (exec (handleFile f) s)) = objectURLs (browser s) /\
     created (browser (exec (handleFile f) s)) = created (browser s) /\
     recognitions (browser (exec (handleFile f) s)) = recognitions (browser s))
  /\
  (In (File.type f) validTypes ->
     toasts (browser (exec (handleFile f) s))
       <> rejection unsupported_type :: toasts (browser s)).
Proof.
  split.
  - intros H. unfold exec. rewrite (handleFile_unsupported f s H).
    repeat split.
  - intros H. destruct (Z_lt_le_dec 10485760 (File.size f)) as [Hs|Hs].
    + unfold exec. rewrite (handleFile_too_large f s H Hs). cbn.
      intros E. inversion E.
    + unfold exec. rewrite (handleFile_accepts f s H Hs).
      destruct (adopt_state f s) as (_ & _ & _ & _ & _ & _ & Ht).
      unfold exec in Ht. rewrite Ht. intros E. inversion E.
Qed.

Lemma type_rule_witness :
  (exec (handleFile big_gif) after_abc
     = exec (toast (rejection unsupported_type)) after_abc /\
   ui (exec (handleFile big_gif) after_abc) = ui after_abc) /\
  toasts (browser (exec (handleFile photo_jpg) after_abc))
    <> rejection unsupported_type :: toasts (browser after_abc).
Proof.
  destruct (type_rule big_gif after_abc) as [Hout _].
  destruct (type_rule photo_jpg after_abc) as [_ Hin].
  split.
  - destruct Hout as (H1 & H2 & _).
    + cbn. intros [H|[H|[H|[H|[]]]]]; discriminate.
    + split; assumption.
  - apply Hin. cbn. right; left; reflexivity.
Defined.

(** C6: the type rule comes first, the size rule second. A candidate that
    passes the type rule is turned down as [too_large] when its size exceeds
    10,485,760 bytes and accepted when it does not; a candidate that fails
    both rules is turned down as [unsupported_type]. *)
Theorem validation_order (f : File.t) (s : Sys) :
  (In (File.type f) validTypes -> (File.size f > 10485760)%Z ->
     exec (handleFile f) s = exec (toast (rejection too_large)) s) /\
  (In (File.type f) validTypes -> (File.size f <= 10485760)%Z ->
     file (ui (exec (handleFile f) s)) = Some f /\
     objectURLs (browser (exec (handleFile f) s))
       !! previewUrl (ui (exec (handleFile f) s)) = Some (OfFile f) /\
     toasts (browser (exec (handleFile f) s))
       = accepted_toast :: toasts (browser s)) /\
  (~ In (File.type f) validTypes -> (File.size f > 10485760)%Z ->
     exec (handleFile f) s = exec (toast (rejection unsupported_type)) s).
Proof.
  split; [|split].
  - intros H Hs. unfold exec. rewrite handleFile_too_large by (auto; lia).
    reflexivity.
  - intros H Hs. unfold exec. rewrite (handleFile_accepts f s H Hs).
    destruct (adopt_state f s) as (Hf & Hp & _ & Ho & _ & _ & Ht).
    unfold exec in *. rewrite Hf, Hp, Ho, Ht.
    repeat split. apply lookup_insert_eq.
  - intros H _. unfold exec. rewrite (handleFile_unsupported f s H).
    reflexivity.
Qed.

Lemma validation_order_witness :
  exec (handleFile big_jpeg) initial
    = exec (toast (rejection too_large)) initial /\
  file (ui (exec (handleFile scan_png) initial)) = Some scan_png /\
  exec (handleFile big_gif) initial
    = exec (toast (rejection unsupported_type)) initial.
Proof.
  destruct (validation_order big_jpeg initial) as (H1 & _ & _).
  destruct (validation_order scan_png initial) as (_ & H2 & _).
  destruct (validation_order big_gif initial) as (_ & _ & H3).
  split; [|split].
  - apply H1; [cbn; left; reflexivity | reflexivity].
  - apply H2; [cbn; right; right; left; reflexivity | discriminate].
  - apply H3; [cbn; intros [H|[H|[H|[H|[]]]]]; discriminate | reflexivity].
Defined.

(** *** Export *)

(** [downloadText] on a non-empty buffer, as one state change. *)
Lemma downloadText_run (now : N) (s : Sys) :
  extractedText (ui s) <> [] ->
  exec (downloadText now) s =
  let b := browser s in
  let url := URL.fresh (created b) in
  let blob := OfBlob (new_Blob [extractedText (ui s)] "text/plain") in
  {| ui := ui s;
     browser :=
       {| objectURLs := delete url (<[url := blob]> (objectURLs b));
          created := N.succ (created b);
          revoked := url :: revoked b;
          clipboard := clipboard b;
          toasts := {| title := "Download started";
                       description := "Your text file is being downloaded.";
                       variant := default |} :: toasts b;
          console := console b;
          body := body b;
          downloads := {| saved_as := export_name now; saved := blob |}
                         :: downloads b;
          recognitions := recognitions b |} |}.
Proof.
  intros Hne. unfold exec, downloadText.
  rewrite run_bind. cbn [get_ui fst snd].
  destruct (extractedText (ui s)) as [|c T] eqn:ET; [congruence|].
  unfold URL.createObjectURL, URL.revokeObjectURL, anchor_click,
    body_appendChild, body_removeChild, toast.
  unfold mbind, M_bind, mret, M_ret, get_browser, put_browser.
  cbn -[insert lookup delete decimal String.append remove_first].
  rewrite lookup_insert_eq.
  cbn -[insert lookup delete decimal String.append remove_first].
  rewrite lookup_insert_eq.
  cbn -[insert lookup delete decimal String.append remove_first].
  cbn [remove_first]. unfold anchor_eqb. cbn [href download].
  rewrite !String.eqb_refl. reflexivity.
Qed.

Lemma downloadText_nonempty (now : N) (s : Sys) :
  extractedText (ui s) <> [] ->
  downloads (browser (exec (downloadText now) s))
    = {| saved_as := export_name now;
         saved := OfBlob {| blob_bytes := utf8 (extractedText (ui s));
                            blob_type := "text/plain" |} |}
      :: downloads (browser s) /\
  ui (exec (downloadText now) s) = ui s /\
  body (browser (exec (downloadText now) s)) = body (browser s).
Proof.
  intros Hne. rewrite (downloadText_run now s Hne). cbn zeta.
  cbn [downloads browser ui body]. unfold new_Blob. cbn [flat_map].
  rewrite app_nil_r. repeat split.
Qed.

(** [downloadText] releases the object URL it created: the one path of the
    page that pairs [URL.createObjectURL] with [URL.revokeObjectURL]. *)
Lemma downloadText_releases_its_url (now : N) (s : Sys) :
  extractedText (ui s) <> [] ->
  revoked (browser (exec (downloadText now) s))
    = URL.fresh (created (browser s)) :: revoked (browser s) /\
  objectURLs (browser (exec (downloadText now) s))
    !! URL.fresh (created (browser s)) = None.
Proof.
  intros Hne. rewrite (downloadText_run now s Hne). cbn zeta.
  cbn [revoked objectURLs browser]. split; [reflexivity|].
  apply lookup_delete_eq.
Qed.

(** *** UTF-8 *)

Section Utf8.
Local Open Scope N_scope.

Ltac in_range :=
  symmetry; apply andb_true_iff; split; apply N.leb_le; lia.
Ltac out_of_range :=
  symmetry; apply andb_false_iff; right; apply N.leb_gt; lia.

Lemma utf8_decode_encode (cp : N) (rest : list N) :
  cp < 1114112 ->
  utf8_decode (utf8_encode cp ++ rest)
  = option_map (cons cp) (utf8_decode rest).
Proof.
  intros Hcp. unfold utf8_encode.
  assert (E2 : cp / 4096 = cp / 64 / 64)
    by (rewrite N.Div0.div_div; reflexivity).
  assert (E3 : cp / 262144 = cp / 64 / 64 / 64)
    by (rewrite !N.Div0.div_div; reflexivity).
  rewrite E3, E2.
  pose proof (N.Div0.div_mod cp 64) as Hd1.
  pose proof (N.mod_upper_bound cp 64 ltac:(lia)) as Hm1.
  pose proof (N.Div0.div_mod (cp / 64) 64) as Hd2.
  pose proof (N.mod_upper_bound (cp / 64) 64 ltac:(lia)) as Hm2.
  pose proof (N.Div0.div_mod (cp / 64 / 64) 64) as Hd3.
  pose proof (N.mod_upper_bound (cp / 64 / 64) 64 ltac:(lia)) as Hm3.
  set (m1 := cp mod 64) in *. set (m2 := (cp / 64) mod 64) in *.
  set (m3 := (cp / 64 / 64) mod 64) in *.
  set (q3 := cp / 64 / 64 / 64) in *. set (q2 := cp / 64 / 64) in *.
  set (q1 := cp / 64) in *.
  clearbody m1 m2 m3 q3 q2 q1. clear E2 E3.
  destruct (N.leb_spec cp 127) as [H1|H1].
  - cbn [app utf8_decode]. destruct (N.leb_spec cp 127); [reflexivity|lia].
  - destruct (N.leb_spec cp 2047) as [H2|H2].
    + cbn [app utf8_decode].
      destruct (N.leb_spec (192 + q1) 127); [lia|].
      replace ((194 <=? 192 + q1) && (192 + q1 <=? 223)) with true by in_range.
      unfold is_continuation.
      replace ((128 <=? 128 + m1) && (128 + m1 <=? 191)) with true by in_range.
      do 2 f_equal. lia.
    + destruct (N.leb_spec cp 65535) as [H3|H3].
      * cbn [app utf8_decode].
        destruct (N.leb_spec (224 + q2) 127); [lia|].
        replace ((194 <=? 224 + q2) && (224 + q2 <=? 223))
          with false by out_of_range.
        replace ((224 <=? 224 + q2) && (224 + q2 <=? 239))
          with true by in_range.
        unfold is_continuation.
        replace ((128 <=? 128 + m2) && (128 + m2 <=? 191)) with true by in_range.
        replace ((128 <=? 128 + m1) && (128 + m1 <=? 191)) with true by in_range.
        cbn [andb]. do 2 f_equal. lia.
      * cbn [app utf8_decode].
        destruct (N.leb_spec (240 + q3) 127); [lia|].
        replace ((194 <=? 240 + q3) && (240 + q3 <=? 223))
          with false by out_of_range.
        replace ((224 <=? 240 + q3) && (240 + q3 <=? 239))
          with false by out_of_range.
        replace ((240 <=? 240 + q3) && (240 + q3 <=? 244))
          with true by in_range.
        unfold is_continuation.
        replace ((128 <=? 128 + m3) && (128 + m3 <=? 191)) with true by in_range.
        replace ((128 <=? 128 + m2) && (128 + m2 <=? 191)) with true by in_range.
        replace ((128 <=? 128 + m1) && (128 + m1 <=? 191)) with true by in_range.
        cbn [andb]. do 2 f_equal. lia.
Qed.

Lemma utf16_encode_pair (c d : N) :
  is_high_surrogate c = true -> is_low_surrogate d = true ->
  utf16_encode (65536 + (c - 55296) * 1024 + (d - 56320)) = [c; d].
Proof.
  unfold is_high_surrogate, is_low_surrogate, utf16_encode.
  rewrite !andb_true_iff, !N.leb_le. intros [Hc1 Hc2] [Hd1 Hd2].
  destruct (N.ltb_spec (65536 + (c - 55296) * 1024 + (d - 56320)) 65536);
    [lia|].
  replace (65536 + (c - 55296) * 1024 + (d - 56320) - 65536)
    with ((d - 56320) + (c - 55296) * 1024) by lia.
  rewrite N.div_add by lia. rewrite N.Div0.mod_add.
  rewrite N.div_small, N.mod_small by lia.
  f_equal; [|f_equal]; lia.
Qed.

(** A file saved from a well-formed string reads back as that string. *)
Lemma utf8_round_trip (s : jsstring) :
  well_formed s = true -> utf16_of_utf8 (utf8 s) = Some s.
Proof.
  unfold utf16_of_utf8, utf8.
  assert (H : forall n (t : jsstring), (length t <= n)%nat ->
            well_formed t = true ->
            option_map (flat_map utf16_encode)
              (utf8_decode (flat_map utf8_encode (scalar_values t)))
            = Some t).
  { induction n as [|n IH]; intros t Hn Hw.
    - destruct t; [reflexivity|cbn in Hn; lia].
    - destruct t as [|c r]; [reflexivity|].
      cbn [well_formed scalar_values] in *.
      destruct (is_high_surrogate c) eqn:Hh.
      + destruct r as [|d r']; [discriminate|].
        apply andb_true_iff in Hw as [Hl Hw]. rewrite Hl.
        cbn [flat_map]. rewrite utf8_decode_encode.
        2:{ unfold is_high_surrogate, is_low_surrogate in *.
            rewrite !andb_true_iff, !N.leb_le in *. lia. }
        specialize (IH r' ltac:(cbn in Hn; lia) Hw).
        destruct (utf8_decode _) as [l|]; [|discriminate].
        cbn in IH |- *. inversion IH as [IH']. rewrite IH'.
        rewrite (utf16_encode_pair c d Hh Hl). reflexivity.
      + apply andb_true_iff in Hw as [Hw1 Hw].
        apply andb_true_iff in Hw1 as [Hl Hc].
        apply negb_true_iff in Hl. rewrite Hl.
        apply N.ltb_lt in Hc.
        cbn [flat_map]. rewrite utf8_decode_encode by lia.
        specialize (IH r ltac:(cbn in Hn; lia) Hw).
        destruct (utf8_decode _) as [l|]; [|discriminate].
        cbn in IH |- *. inversion IH as [IH']. rewrite IH'.
        unfold utf16_encode. destruct (N.ltb_spec c 65536); [reflexivity|lia]. }
  intros Hw. exact (H (length s) s (le_n _) Hw).
Qed.

End Utf8.

(** C8, as stated, fails: with the buffer "a", an unpaired surrogate, "b",
    the file [downloadText] saves holds the bytes 61 EF BF BD 62, which read
    back as "a", U+FFFD, "b": not the buffer. *)
Lemma export_lone_surrogate_counterexample :
  extractedText (ui (exec (setExtractedText [97; 55296; 98]%N) initial))
    = [97; 55296; 98]%N /\
  downloads
    (browser (exec (downloadText 0)
                (exec (setExtractedText [97; 55296; 98]%N) initial)))
    = [ {| saved_as := "extracted-text-0.txt";
           saved := OfBlob {| blob_bytes := [97; 239; 191; 189; 98]%N;
                              blob_type := "text/plain" |} |} ] /\
  utf16_of_utf8 [97; 239; 191; 189; 98]%N = Some [97; 65533; 98]%N /\
  utf16_of_utf8 [97; 239; 191; 189; 98]%N <> Some [97; 55296; 98]%N.
Proof.
  split; [vm_compute; reflexivity|].
  split; [vm_compute; reflexivity|].
  split; [vm_compute; reflexivity|].
  vm_compute. discriminate.
Qed.

(** C8, amended: with an empty buffer [copyToClipboard] and [downloadText]
    do nothing. With a non-empty buffer [T], a permitted copy leaves [T] on
    the clipboard; a denied copy only raises the "Copy failed" toast; the
    buffer is [T] after either; and the download saves, under the name
    extracted-text-<now>.txt, a text/plain blob whose bytes are the UTF-8
    encoding of [T] with every unpaired surrogate replaced by U+FFFD,
    leaving the buffer as it was. When [T] is well-formed UTF-16 the saved
    bytes read back as exactly [T]. *)
Theorem export_behaviour (s : Sys) (now : N) (allowed : bool) :
  (extractedText (ui s) = [] ->
     copyToClipboard allowed s = (tt, s) /\ downloadText now s = (tt, s)) /\
  (extractedText (ui s) <> [] ->
     clipboard (browser (exec (copyToClipboard true) s)) = extractedText (ui s) /\
     exec (copyToClipboard false) s = exec (toast copy_failed) s /\
     extractedText (ui (exec (copyToClipboard allowed) s)) = extractedText (ui s) /\
     downloads (browser (exec (downloadText now) s))
       = {| saved_as := "extracted-text-" ++ decimal now ++ ".txt";
            saved := OfBlob {| blob_bytes := utf8 (extractedText (ui s));
                               blob_type := "text/plain" |} |}
         :: downloads (browser s) /\
     (well_formed (extractedText (ui s)) = true ->
      utf16_of_utf8 (utf8 (extractedText (ui s)))
        = Some (extractedText (ui s))) /\
     extractedText (ui (exec (downloadText now) s)) = extractedText (ui s)).
Proof.
  split.
  - intros HE. unfold copyToClipboard, downloadText.
    rewrite !run_bind. cbn [get_ui fst snd]. rewrite HE. split; reflexivity.
  - intros Hne.
    destruct (downloadText_nonempty now s Hne) as (Hd & Hu & _).
    assert (Hcopy : forall a : bool,
      exec (copyToClipboard a) s
      = if a then exec (toast {| title := "Text copied!";
                                 description :=
                                   "The extracted text has been copied to your clipboard.";
                                 variant := default |})
                    (exec (clipboard_writeText true (extractedText (ui s))) s)
        else exec (toast copy_failed) s).
    { intros a. unfold exec, copyToClipboard.
      rewrite run_bind. cbn [get_ui fst snd].
      destruct (extractedText (ui s)) as [|c T] eqn:ET; [congruence|].
      destruct a; reflexivity. }
    split; [rewrite (Hcopy true); reflexivity|].
    split; [exact (Hcopy false)|].
    split; [rewrite (Hcopy allowed); destruct allowed; reflexivity|].
    split; [exact Hd|].
    split; [apply utf8_round_trip|]. rewrite Hu. reflexivity.
Qed.

Lemma export_behaviour_witness :
  (copyToClipboard true initial = (tt, initial) /\
   downloadText 1700000000000 initial = (tt, initial)) /\
  clipboard (browser (exec (copyToClipboard true) after_abc))
    = extractedText (ui after_abc) /\
  exec (copyToClipboard false) after_abc = exec (toast copy_failed) after_abc /\
  downloads (browser (exec (downloadText 1700000000000) after_abc))
    = {| saved_as := "extracted-text-" ++ decimal 1700000000000 ++ ".txt";
         saved := OfBlob {| blob_bytes := utf8 (extractedText (ui after_abc));
                            blob_type := "text/plain" |} |}
      :: downloads (browser after_abc) /\
  utf16_of_utf8 (utf8 (extractedText (ui after_abc)))
    = Some (extractedText (ui after_abc)).
Proof.
  destruct (export_behaviour initial 1700000000000 true) as [Hempty _].
  destruct (export_behaviour after_abc 1700000000000 true) as [_ Hfull].
  split; [apply Hempty; vm_compute; reflexivity|].
  assert (Hne : extractedText (ui after_abc) <> [])
    by (vm_compute; discriminate).
  destruct (Hfull Hne) as (H1 & H2 & _ & H4 & H5 & _).
  split; [exact H1|]. split; [exact H2|]. split; [exact H4|].
  apply H5. vm_compute; reflexivity.
Defined.

(** *** The counts under the text area *)

(** The character count is the length of the buffer in code units. *)
Lemma displayed_characters (u : State) (w c : nat) :
  displayed_counts u = Some (w, c) -> c = length (extractedText u).
Proof.
  unfold displayed_counts. destruct (extractedText u); [discriminate|].
  intros E; inversion E; reflexivity.
Qed.

Lemma displayed_counts_hello_world :
  displayed_counts (showing (js "hello world")) = Some (2, 11) /\
  word_tokens (js "hello world") = 2.
Proof. split; vm_compute; reflexivity. Qed.

(** The pieces of [split] counted against the tokens: one piece more than
    tokens while inside a token, and one more for trailing white space. *)
Lemma split_go_length (s : jsstring) :
  (forall cur, length (split_go false cur s)
               = count_tokens true s + 1 + trailing_space s) /\
  (forall cur, length (split_go true cur s)
               = count_tokens false s
                 + match s with [] => 1 | _ :: _ => trailing_space s end).
Proof.
  induction s as [|c r [IHw IHs]].
  - split; intros cur; reflexivity.
  - assert (Ht : trailing_space (c :: r)
                 = match r with
                   | [] => if is_space c then 1 else 0
                   | _ :: _ => trailing_space r
                   end).
    { unfold trailing_space. destruct r; reflexivity. }
    split; intros cur; cbn [split_go count_tokens]; rewrite Ht;
      destruct (is_space c) eqn:Hc; cbn [length];
      rewrite ?IHw, ?IHs; destruct r; cbn; lia.
Qed.

(** The displayed word count of a non-empty text is the number of tokens,
    plus one if the text starts with white space, plus one if it ends with
    white space. *)
Lemma displayed_words (T : jsstring) (w c : nat) :
  displayed_counts (showing T) = Some (w, c) ->
  w = word_tokens T + leading_space T + trailing_space T.
Proof.
  unfold displayed_counts, showing. cbn [exec setExtractedText ui extractedText].
  destruct T as [|c0 r] eqn:ET; [discriminate|]. intros E; inversion E; subst w c.
  clear E. unfold split_ws, word_tokens.
  destruct (split_go_length r) as [IHw IHs].
  assert (Ht : trailing_space (c0 :: r)
               = match r with
                 | [] => if is_space c0 then 1 else 0
                 | _ :: _ => trailing_space r
                 end).
  { unfold trailing_space. destruct r; reflexivity. }
  cbn [split_go count_tokens leading_space]. rewrite Ht.
  destruct (is_space c0) eqn:Hc; cbn [length];
    rewrite ?IHw, ?IHs; destruct r; cbn; lia.
Qed.

(** C9, at a failing input: for the text "hello world" followed by a line
    feed, which has two white-space-delimited non-empty tokens and twelve
    code units, the page shows "3 words, 12 characters": the empty piece
    after the final line feed is counted as a word. *)
Theorem word_count_counts_empty_piece :
  displayed_counts (showing (js "hello world" ++ [10%N])%list) = Some (3, 12) /\
  word_tokens (js "hello world" ++ [10%N])%list = 2 /\
  length (js "hello world" ++ [10%N])%list = 12.
Proof. repeat split; vm_compute; reflexivity. Qed.

(** ** Binary64 rounding *)

Section Grid.
Local Open Scope Z_scope.

Lemma rne_cases (X n : Z) :
  0 <= n ->
  exists q r, X = q * 2 ^ n + r /\ 0 <= r < 2 ^ n /\
    ((2 * r < 2 ^ n /\ rne X n = q) \/
     (2 ^ n < 2 * r /\ rne X n = q + 1) \/
     (2 * r = 2 ^ n /\ (rne X n = q \/ rne X n = q + 1) /\ Z.even (rne X n) = true)).
Proof.
  intros Hn. assert (Hg : 0 < 2 ^ n) by (apply Z.pow_pos_nonneg; lia).
  exists (X / 2 ^ n), (X mod 2 ^ n).
  pose proof (Z.div_mod X (2 ^ n) ltac:(lia)) as Hdm.
  pose proof (Z.mod_pos_bound X (2 ^ n) Hg) as Hb.
  split; [lia|]. split; [exact Hb|].
  unfold rne. cbv zeta.
  destruct (Z.ltb_spec (2 * (X mod 2 ^ n)) (2 ^ n)); [left; split; [lia|reflexivity]|].
  destruct (Z.ltb_spec (2 ^ n) (2 * (X mod 2 ^ n))); [right; left; split; [lia|reflexivity]|].
  right; right. split; [lia|].
  destruct (Z.even (X / 2 ^ n)) eqn:Ev.
  - split; [left; reflexivity|exact Ev].
  - split; [right; reflexivity|].
    rewrite Z.even_add, Ev. reflexivity.
Qed.

(** A grid point above [X] is above its rounding. *)
Lemma rne_le_grid (X n y : Z) :
  0 <= n -> X <= y * 2 ^ n -> rne X n <= y.
Proof.
  intros Hn H. destruct (rne_cases X n Hn) as (q & r & HX & Hr & Hc).
  assert (Hg : 0 < 2 ^ n) by (apply Z.pow_pos_nonneg; lia).
  assert (q <= y) by nia.
  destruct (Z.eq_dec q y) as [->|Hne].
  - assert (r = 0) by nia. subst r.
    destruct Hc as [[_ ->]|[[? _]|[? _]]]; lia.
  - destruct Hc as [[_ ->]|[[_ ->]|[_ [[->| ->] _]]]]; lia.
Qed.

(** A grid point below [X] is below its rounding. *)
Lemma rne_ge_grid (X n y : Z) :
  0 <= n -> y * 2 ^ n <= X -> y <= rne X n.
Proof.
  intros Hn H. destruct (rne_cases X n Hn) as (q & r & HX & Hr & Hc).
  assert (Hg : 0 < 2 ^ n) by (apply Z.pow_pos_nonneg; lia).
  assert (y <= q) by nia.
  destruct Hc as [[_ ->]|[[_ ->]|[_ [[->| ->] _]]]]; lia.
Qed.

(** On one grid, rounding is monotone. *)
Lemma rne_mono (X X' n : Z) :
  0 <= n -> X <= X' -> rne X n <= rne X' n.
Proof.
  intros Hn H.
  destruct (rne_cases X n Hn) as (q & r & HX & Hr & Hc).
  destruct (rne_cases X' n Hn) as (q' & r' & HX' & Hr' & Hc').
  assert (Hg : 0 < 2 ^ n) by (apply Z.pow_pos_nonneg; lia).
  assert (q <= q') by nia.
  destruct (Z.eq_dec q q') as [->|Hne].
  - assert (r <= r') by nia.
    destruct Hc as [[? Hc]|[[? Hc]|[? [Hc Hev]]]];
    destruct Hc' as [[? Hc']|[[? Hc']|[? [Hc' Hev']]]]; try lia.
    destruct Hc as [Hc|Hc], Hc' as [Hc'|Hc']; try lia.
    rewrite Hc in Hev. rewrite Hc' in Hev'.
    rewrite Z.even_add, Hev' in Hev. discriminate.
  - assert (rne X n <= q + 1) by (destruct Hc as [[_ ->]|[[_ ->]|[_ [[->| ->] _]]]]; lia).
    assert (q' <= rne X' n) by (destruct Hc' as [[_ ->]|[[_ ->]|[_ [[->| ->] _]]]]; lia).
    lia.
Qed.

(** Rounding does not depend on the unit the two arguments are written in. *)
Lemma rne_scale (X n j : Z) :
  0 <= n -> 0 <= j -> rne (X * 2 ^ j) (n + j) = rne X n.
Proof.
  intros Hn Hj. unfold rne.
  assert (Hg : 0 < 2 ^ n) by (apply Z.pow_pos_nonneg; lia).
  assert (Hgj : 0 < 2 ^ j) by (apply Z.pow_pos_nonneg; lia).
  rewrite Z.pow_add_r by lia.
  rewrite Z.div_mul_cancel_r by lia.
  rewrite Z.mul_mod_distr_r by lia.
  cbv zeta.
  replace (2 * (X mod 2 ^ n * 2 ^ j) <? 2 ^ n * 2 ^ j)
    with (2 * (X mod 2 ^ n) <? 2 ^ n).
  2:{ destruct (Z.ltb_spec (2 * (X mod 2 ^ n)) (2 ^ n));
      destruct (Z.ltb_spec (2 * (X mod 2 ^ n * 2 ^ j)) (2 ^ n * 2 ^ j)); try reflexivity; nia. }
  replace (2 ^ n * 2 ^ j <? 2 * (X mod 2 ^ n * 2 ^ j))
    with (2 ^ n <? 2 * (X mod 2 ^ n)).
  2:{ destruct (Z.ltb_spec (2 ^ n) (2 * (X mod 2 ^ n)));
      destruct (Z.ltb_spec (2 ^ n * 2 ^ j) (2 * (X mod 2 ^ n * 2 ^ j))); try reflexivity; nia. }
  reflexivity.
Qed.

Lemma rounded_mono (lo X X' : Z) :
  0 <= lo -> 0 < X -> X <= X' -> rounded lo X <= rounded lo X'.
Proof.
  intros Hlo HX H. unfold rounded.
  pose proof (Z.log2_le_mono X X' H) as Hl.
  assert (HG : grid lo X <= grid lo X') by (unfold grid; lia).
  assert (H0 : 0 <= grid lo X) by (unfold grid; lia).
  destruct (Z.eq_dec (grid lo X) (grid lo X')) as [E|NE].
  - rewrite <- E. apply Z.mul_le_mono_nonneg_r.
    + apply Z.lt_le_incl, Z.pow_pos_nonneg; lia.
    + apply rne_mono; lia.
  - (* the power of two between the two binades lies on both grids *)
    set (G := grid lo X) in *. set (G' := grid lo X') in *.
    assert (HG' : G' = Z.log2 X' + 1 - 53) by (unfold G', G, grid in *; lia).
    assert (Hup : X < 2 ^ (G + 53)).
    { destruct (Z.log2_spec X HX) as [_ Hu].
      eapply Z.lt_le_trans; [exact Hu|].
      apply Z.pow_le_mono_r; [lia|]. unfold G, grid. lia. }
    assert (Hlow : 2 ^ (G' + 52) <= X').
    { destruct (Z.log2_spec X' ltac:(lia)) as [Hl' _].
      replace (G' + 52) with (Z.log2 X') by lia. exact Hl'. }
    assert (HB1 : 2 ^ (G' + 52) = 2 ^ (G' + 52 - G) * 2 ^ G).
    { rewrite <- Z.pow_add_r by lia. f_equal; lia. }
    assert (HB2 : 2 ^ (G' + 52) = 2 ^ 52 * 2 ^ G').
    { rewrite <- Z.pow_add_r by lia. f_equal; lia. }
    assert (Hle : 2 ^ (G + 53) <= 2 ^ (G' + 52))
      by (apply Z.pow_le_mono_r; lia).
    assert (H1 : rne X G <= 2 ^ (G' + 52 - G))
      by (apply rne_le_grid; lia).
    assert (H2 : 2 ^ 52 <= rne X' G')
      by (apply rne_ge_grid; lia).
    assert (0 < 2 ^ G) by (apply Z.pow_pos_nonneg; lia).
    assert (0 < 2 ^ G') by (apply Z.pow_pos_nonneg; lia).
    nia.
Qed.

End Grid.

Section Shift.
Local Open Scope Z_scope.

Lemma digits2_pos_size (p : positive) : digits2_pos p = Pos.size p.
Proof. induction p; cbn; congruence. Qed.

Lemma digits2_pos_log2 (p : positive) :
  Z.pos (digits2_pos p) = Z.log2 (Z.pos p) + 1.
Proof.
  rewrite digits2_pos_size.
  destruct p; cbn [Z.log2 Pos.size]; rewrite ?Pos2Z.inj_succ; lia.
Qed.

Lemma iter_pos_nat {A} (f : A -> A) (p : positive) (x : A) :
  SpecFloat.iter_pos f p x = Nat.iter (Pos.to_nat p) f x.
Proof.
  revert x; induction p as [p IH|p IH|]; intros x; cbn [SpecFloat.iter_pos].
  - rewrite !IH, Pos2Nat.inj_xI.
    replace (S (2 * Pos.to_nat p))%nat
      with (Pos.to_nat p + (Pos.to_nat p + 1))%nat by lia.
    rewrite !Nat.iter_add. reflexivity.
  - rewrite !IH, Pos2Nat.inj_xO.
    replace (2 * Pos.to_nat p)%nat with (Pos.to_nat p + Pos.to_nat p)%nat by lia.
    rewrite Nat.iter_add. reflexivity.
  - reflexivity.
Qed.

Lemma shr_1_nonneg (m : Z) (r s : bool) :
  0 <= m ->
  shr_1 {| shr_m := m; shr_r := r; shr_s := s |}
  = {| shr_m := m / 2; shr_r := Z.odd m; shr_s := r || s |}.
Proof.
  intros Hm. rewrite <- Z.div2_div.
  destruct m as [|[p|p|]|p]; try reflexivity; lia.
Qed.

(** [k + 1] one-bit shifts of [X] keep the quotient, the last bit shifted
    out, and whether any bit before it was set. *)
Lemma shr_iter (X : Z) (k : nat) :
  0 <= X ->
  Nat.iter (S k) shr_1 {| shr_m := X; shr_r := false; shr_s := false |}
  = {| shr_m := X / 2 ^ (Z.of_nat k + 1);
       shr_r := Z.odd (X / 2 ^ Z.of_nat k);
       shr_s := negb (X mod 2 ^ Z.of_nat k =? 0) |}.
Proof.
  intros HX. induction k as [|k IH].
  - cbn [Nat.iter]. rewrite shr_1_nonneg by lia.
    cbn [Z.of_nat]. rewrite Z.pow_0_r, Z.div_1_r, Z.mod_1_r. reflexivity.
  - rewrite Nat.iter_succ, IH.
    assert (Hg : 0 < 2 ^ Z.of_nat k) by (apply Z.pow_pos_nonneg; lia).
    rewrite shr_1_nonneg by (apply Z.div_pos; [lia|apply Z.pow_pos_nonneg; lia]).
    replace (Z.of_nat (S k)) with (Z.of_nat k + 1) by lia.
    f_equal.
    + rewrite Z.div_div by lia.
      rewrite (Z.pow_add_r 2 (Z.of_nat k + 1) 1) by lia. reflexivity.
    + rewrite (Z.pow_add_r 2 (Z.of_nat k) 1), Z.pow_1_r by lia.
      rewrite Z.rem_mul_r by lia.
      pose proof (Z.mod_pos_bound X (2 ^ Z.of_nat k) Hg) as Hb.
      pose proof (Zmod_odd (X / 2 ^ Z.of_nat k)) as Ho.
      destruct (Z.odd (X / 2 ^ Z.of_nat k)); rewrite Ho; cbn [orb].
      * symmetry. apply negb_true_iff, Z.eqb_neq. lia.
      * f_equal. f_equal. lia.
Qed.

(** After a shift by [n > 0], rounding the record to nearest even is [rne]. *)
Lemma shr_round (X : Z) (p : positive) :
  0 <= X ->
  let mrs := SpecFloat.iter_pos shr_1 p {| shr_m := X; shr_r := false; shr_s := false |} in
  round_nearest_even (shr_m mrs) (loc_of_shr_record mrs) = rne X (Z.pos p).
Proof.
  intros HX mrs. subst mrs. rewrite iter_pos_nat.
  destruct (Pos.to_nat p) as [|k] eqn:Ek; [lia|].
  rewrite (shr_iter X k HX).
  assert (Hp : Z.pos p = Z.of_nat k + 1) by lia.
  rewrite Hp. set (j := Z.of_nat k). assert (Hj : 0 <= j) by lia.
  clearbody j. clear Hp Ek k p.
  assert (Hg : 0 < 2 ^ j) by (apply Z.pow_pos_nonneg; lia).
  unfold rne. cbv zeta.
  rewrite (Z.pow_add_r 2 j 1), Z.pow_1_r by lia.
  rewrite Z.rem_mul_r by lia.
  pose proof (Z.mod_pos_bound X (2 ^ j) Hg) as Hb.
  pose proof (Zmod_odd (X / 2 ^ j)) as Ho.
  cbn [shr_m shr_r shr_s loc_of_shr_record].
  destruct (Z.odd (X / 2 ^ j)); rewrite Ho;
    destruct (Z.eqb_spec (X mod 2 ^ j) 0) as [E0|E0]; cbn [negb loc_of_shr_record round_nearest_even].
  - destruct (Z.ltb_spec (2 * (X mod 2 ^ j + 2 ^ j * 1)) (2 ^ j * 2)); [lia|].
    destruct (Z.ltb_spec (2 ^ j * 2) (2 * (X mod 2 ^ j + 2 ^ j * 1))); [lia|].
    reflexivity.
  - destruct (Z.ltb_spec (2 * (X mod 2 ^ j + 2 ^ j * 1)) (2 ^ j * 2)); [lia|].
    destruct (Z.ltb_spec (2 ^ j * 2) (2 * (X mod 2 ^ j + 2 ^ j * 1))); [|lia].
    reflexivity.
  - destruct (Z.ltb_spec (2 * (X mod 2 ^ j + 2 ^ j * 0)) (2 ^ j * 2)); [|lia].
    reflexivity.
  - destruct (Z.ltb_spec (2 * (X mod 2 ^ j + 2 ^ j * 0)) (2 ^ j * 2)); [|lia].
    reflexivity.
Qed.

End Shift.

Section RoundAux.
Local Open Scope Z_scope.

Lemma shr_nonpos (mrs : shr_record) (e n : Z) :
  n <= 0 -> shr mrs e n = (mrs, e).
Proof. destruct n; [reflexivity|lia|reflexivity]. Qed.

Lemma fexp_binary64 (e : Z) : fexp 53 1024 e = Z.max (e - 53) (-1074).
Proof. reflexivity. Qed.

Lemma shr_fexp_first (M p : positive) (E : Z) :
  fexp 53 1024 (Z.pos (digits2_pos M) + E) - E = Z.pos p ->
  shr_fexp 53 1024 (Z.pos M) E loc_Exact
  = (SpecFloat.iter_pos shr_1 p
       {| shr_m := Z.pos M; shr_r := false; shr_s := false |},
     E + Z.pos p).
Proof.
  intros En. unfold shr_fexp. cbn [Zdigits2 shr_record_of_loc].
  rewrite En. reflexivity.
Qed.

(** Re-normalising a rounded mantissa: only [2^53] needs one more shift. *)
Lemma shr_fexp_second (U e1 : Z) :
  0 <= U <= 2 ^ 53 -> -1074 <= e1 ->
  shr_fexp 53 1024 U e1 loc_Exact
  = if U =? 2 ^ 53
    then ({| shr_m := 2 ^ 52; shr_r := false; shr_s := false |}, e1 + 1)
    else ({| shr_m := U; shr_r := false; shr_s := false |}, e1).
Proof.
  intros HU He. unfold shr_fexp. cbn [shr_record_of_loc].
  rewrite fexp_binary64.
  destruct (Z.eqb_spec U (2 ^ 53)) as [E53|N53].
  - subst U. change (Zdigits2 (2 ^ 53)) with 54.
    replace (Z.max (54 + e1 - 53) (-1074) - e1) with 1 by lia.
    reflexivity.
  - rewrite shr_nonpos; [reflexivity|].
    destruct U as [|u|u]; [cbn [Zdigits2]; lia| |lia].
    cbn [Zdigits2]. rewrite digits2_pos_log2.
    assert (Z.log2 (Z.pos u) < 53) by (apply Z.log2_lt_pow2; lia).
    lia.
Qed.

(** [binary_round_aux] on an exact positive [M * 2^E] that has more bits than
    the format holds: the result is [M * 2^E] rounded to nearest, ties to
    even, on the grid [2^e1] of its binade. *)
Lemma binary_round_aux_exact (M : positive) (E : Z) :
  let e1 := fexp 53 1024 (Z.pos (digits2_pos M) + E) in
  let U := rne (Z.pos M) (e1 - E) in
  E < e1 -> e1 + 1 <= 971 ->
  (U = 0 /\
   binary_round_aux 53 1024 false (Z.pos M) E loc_Exact = S754_zero false) \/
  (exists m e,
     binary_round_aux 53 1024 false (Z.pos M) E loc_Exact
       = S754_finite false m e /\
     e1 <= e <= e1 + 1 /\ Z.pos m * 2 ^ (e - e1) = U).
Proof.
  intros e1 U Hlt Hmax.
  assert (He1 : -1074 <= e1 /\ Z.log2 (Z.pos M) + 1 + E - 53 <= e1).
  { unfold e1. rewrite fexp_binary64, digits2_pos_log2. lia. }
  assert (HU0 : 0 <= U <= 2 ^ 53).
  { unfold U. split.
    - apply rne_ge_grid; lia.
    - apply rne_le_grid; [lia|].
      rewrite <- Z.pow_add_r by lia.
      destruct (Z.log2_spec (Z.pos M) ltac:(lia)) as [_ Hu].
      apply Z.lt_le_incl. eapply Z.lt_le_trans; [exact Hu|].
      apply Z.pow_le_mono_r; lia. }
  destruct (e1 - E) as [|p|p] eqn:En; try lia.
  unfold binary_round_aux.
  rewrite (shr_fexp_first M p E En).
  pose proof (shr_round (Z.pos M) p ltac:(lia)) as HU. cbv zeta in HU.
  rewrite HU. fold U. replace (E + Z.pos p) with e1 by lia.
  rewrite (shr_fexp_second U e1 HU0 (proj1 He1)).
  destruct (Z.eqb_spec U (2 ^ 53)) as [E53|N53].
  - right. cbn [shr_m]. change (2 ^ 52) with 4503599627370496.
    replace (e1 + 1 <=? 1024 - 53) with true by (symmetry; apply Z.leb_le; lia).
    exists 4503599627370496%positive, (e1 + 1). split; [reflexivity|].
    split; [lia|]. replace (e1 + 1 - e1) with 1 by lia. rewrite E53. reflexivity.
  - cbn [shr_m]. destruct U as [|u|u] eqn:EU; [left; split; reflexivity| |lia].
    right.
    replace (e1 <=? 1024 - 53) with true by (symmetry; apply Z.leb_le; lia).
    exists u, e1. split; [reflexivity|]. split; [lia|].
    rewrite Z.sub_diag, Z.pow_0_r. lia.
Qed.

End RoundAux.

Section Percent.
Local Open Scope Z_scope.

Lemma Number_of_Z_100 :
  Number_of_Z 100 = S754_finite false 7036874417766400 (-46).
Proof. vm_compute. reflexivity. Qed.

Lemma Number_of_Z_1 :
  Number_of_Z 1 = S754_finite false 4503599627370496 (-52).
Proof. vm_compute. reflexivity. Qed.

Lemma Number_of_Z_0 : Number_of_Z 0 = S754_zero false.
Proof. reflexivity. Qed.

(** The shape of a fraction. *)
Lemma is_fraction_cases (p : Number) :
  is_fraction p = true ->
  (exists s, p = S754_zero s) \/
  (exists m e, p = S754_finite false m e /\
     -1074 <= e <= -52 /\
     e = Z.max (Z.log2 (Z.pos m) + 1 + e - 53) (-1074) /\
     Z.pos m <= 2 ^ (- e)).
Proof.
  unfold is_fraction. rewrite !andb_true_iff. intros [[Hv H0] H1].
  rewrite Number_of_Z_0 in H0. rewrite Number_of_Z_1 in H1.
  destruct p as [s|s| |s m e].
  - left; eauto.
  - destruct s; discriminate.
  - discriminate.
  - right. destruct s; [discriminate|]. exists m, e. split; [reflexivity|].
    cbn [valid_binary] in Hv. unfold bounded, canonical_mantissa in Hv.
    apply andb_true_iff in Hv as [Hc _]. apply Z.eqb_eq in Hc.
    unfold prec, emax in Hc. rewrite fexp_binary64, digits2_pos_log2 in Hc.
    assert (Hl := Z.log2_nonneg (Z.pos m)).
    unfold Number_le, SFleb, SFcompare in H1.
    destruct (Z.compare_spec e (-52)) as [He|He|He]; try discriminate.
    + (* the exponent of 1 *)
      rewrite Pos.compare_cont_spec in H1.
      assert (Hm : Z.pos m <= 4503599627370496).
      { unfold Z.le. cbn [Z.compare].
        destruct (m ?= 4503599627370496)%positive; cbn in H1; congruence. }
      split; [lia|]. split; [lia|].
      subst e. change (2 ^ (- -52)) with 4503599627370496. lia.
    + split; [lia|]. split; [lia|].
      destruct (Z.log2_spec (Z.pos m) ltac:(lia)) as [_ Hu].
      apply Z.lt_le_incl. eapply Z.lt_le_trans; [exact Hu|].
      apply Z.pow_le_mono_r; lia.
Qed.

Lemma scaled_fraction (m : positive) (e : Z) :
  -1074 <= e <= -52 -> Z.pos m <= 2 ^ (- e) ->
  0 < scaled (S754_finite false m e) <= 2 ^ 1074.
Proof.
  intros He Hm. cbn [scaled].
  assert (Hg : 0 < 2 ^ (e + 1074)) by (apply Z.pow_pos_nonneg; lia).
  split; [apply Z.mul_pos_pos; lia|].
  replace 1074 with (- e + (e + 1074)) at 2 by lia.
  rewrite (Z.pow_add_r 2 (- e) (e + 1074)) by lia.
  apply Z.mul_le_mono_nonneg_r; lia.
Qed.

(** On fractions, [<=] of Numbers is [<=] of values. *)
Lemma Number_le_scaled (p q : Number) :
  is_fraction p = true -> is_fraction q = true ->
  Number_le p q = true -> scaled p <= scaled q.
Proof.
  intros Hp Hq Hle.
  destruct (is_fraction_cases p Hp) as [[s ->]|(m & e & -> & He & Hc & _)];
  destruct (is_fraction_cases q Hq) as [[s' ->]|(m' & e' & -> & He' & Hc' & _)].
  - reflexivity.
  - cbn [scaled]. assert (0 < 2 ^ (e' + 1074)) by (apply Z.pow_pos_nonneg; lia). nia.
  - discriminate.
  - cbn [scaled]. unfold Number_le, SFleb, SFcompare in Hle.
    assert (Hg : 0 < 2 ^ (e + 1074)) by (apply Z.pow_pos_nonneg; lia).
    destruct (Z.compare_spec e e') as [Hee|Hee|Hee]; try discriminate.
    + subst e'. rewrite Pos.compare_cont_spec in Hle.
      assert (Hm : Z.pos m <= Z.pos m').
      { unfold Z.le. cbn [Z.compare].
        destruct (m ?= m')%positive; cbn in Hle; congruence. }
      apply Z.mul_le_mono_nonneg_r; lia.
    + (* a smaller exponent: [q] is normal, [p] has at most 53 bits *)
      assert (Hl' : Z.log2 (Z.pos m') = 52) by lia.
      assert (Hl : Z.log2 (Z.pos m) <= 52) by lia.
      destruct (Z.log2_spec (Z.pos m) ltac:(lia)) as [_ Hu].
      destruct (Z.log2_spec (Z.pos m') ltac:(lia)) as [Hlo _].
      rewrite Hl' in Hlo.
      assert (Hm : Z.pos m < 2 ^ 53).
      { eapply Z.lt_le_trans; [exact Hu|]. apply Z.pow_le_mono_r; lia. }
      replace (e' + 1074) with ((e' - e - 1) + 1 + (e + 1074)) by lia.
      rewrite (Z.pow_add_r 2 (e' - e - 1 + 1) (e + 1074)) by lia.
      rewrite (Z.pow_add_r 2 (e' - e - 1) 1) by lia.
      assert (0 < 2 ^ (e' - e - 1)) by (apply Z.pow_pos_nonneg; lia).
      change (2 ^ 53) with 9007199254740992 in Hm.
      change (2 ^ 52) with 4503599627370496 in Hlo.
      rewrite Z.pow_1_r.
      set (a := 2 ^ (e' - e - 1)) in *. set (b := 2 ^ (e + 1074)) in *.
      assert (Z.pos m * b <= 9007199254740992 * b) by (apply Z.mul_le_mono_nonneg_r; lia).
      assert (9007199254740992 * b <= Z.pos m' * (a * 2) * b).
      { apply Z.mul_le_mono_nonneg_r; [lia|]. nia. }
      lia.
Qed.

Lemma half_unit : 2 ^ 1120 = 2 * 2 ^ 1119.
Proof. rewrite <- (Z.pow_succ_r 2 1119) by lia. reflexivity. Qed.

Lemma percent_Z_of_rounded (R : Z) :
  0 <= R <= 100 * 2 ^ 1120 -> 0 <= (R + 2 ^ 1119) / 2 ^ 1120 <= 100.
Proof.
  intros HR. rewrite half_unit in *.
  assert (HP : 0 < 2 ^ 1119) by (apply Z.pow_pos_nonneg; lia).
  set (P := 2 ^ 1119) in *. clearbody P. split.
  - apply Z.div_pos; lia.
  - apply Z.lt_succ_r. apply Z.div_lt_upper_bound; lia.
Qed.

Lemma rounded_nonneg (lo X : Z) : 0 <= lo -> 0 <= X -> 0 <= rounded lo X.
Proof.
  intros Hlo HX. unfold rounded.
  assert (0 <= grid lo X) by (unfold grid; lia).
  apply Z.mul_nonneg_nonneg; [|apply Z.pow_nonneg; lia].
  apply rne_ge_grid; lia.
Qed.

(** The product of a positive fraction by 100, rounded by [Math.round]. *)
Lemma percent_finite (m : positive) (e : Z) :
  -1074 <= e <= -52 ->
  e = Z.max (Z.log2 (Z.pos m) + 1 + e - 53) (-1074) ->
  Z.pos m <= 2 ^ (- e) ->
  let p := S754_finite false m e in
  percent p = (if percent_Z p =? 0 then S754_zero false
               else Number_of_Z (percent_Z p)) /\
  0 <= percent_Z p <= 100.
Proof.
  intros He Hc Hm p.
  set (c := 7036874417766400%positive).
  set (M := (m * c)%positive). set (E := e + -46).
  assert (HM : Z.pos M = Z.pos m * 7036874417766400) by reflexivity.
  assert (Hmul : percent p
                 = Math.round (binary_round_aux 53 1024 false (Z.pos M) E loc_Exact)).
  { unfold percent, Number_mul. rewrite Number_of_Z_100. reflexivity. }
  (* the size of the exact product *)
  assert (Hl := Z.log2_nonneg (Z.pos m)).
  destruct (Z.log2_spec (Z.pos m) ltac:(lia)) as [Hlo Hhi].
  assert (HlM1 : Z.log2 (Z.pos m) + 52 <= Z.log2 (Z.pos M)).
  { apply Z.log2_le_pow2; [lia|]. rewrite Z.pow_add_r by lia.
    change (2 ^ 52) with 4503599627370496. rewrite HM.
    set (a := 2 ^ Z.log2 (Z.pos m)) in *. nia. }
  assert (HlM2 : Z.log2 (Z.pos M) < 53 - e).
  { apply Z.log2_lt_pow2; [lia|].
    replace (53 - e) with (- e + 53) by lia. rewrite Z.pow_add_r by lia.
    change (2 ^ 53) with 9007199254740992. rewrite HM.
    assert (0 < 2 ^ (- e)) by (apply Z.pow_pos_nonneg; lia).
    set (a := 2 ^ (- e)) in *. nia. }
  pose proof (binary_round_aux_exact M E) as Hbra. cbv zeta in Hbra.
  remember (fexp 53 1024 (Z.pos (digits2_pos M) + E)) as e1 eqn:He1.
  rewrite fexp_binary64, digits2_pos_log2 in He1.
  assert (Hlt : E < e1) by (unfold E; lia).
  assert (Hup : e1 <= -46) by (unfold E in *; lia).
  (* the same rounding, read on the scaled value *)
  set (X := 7036874417766400 * scaled p).
  assert (HX : X = Z.pos M * 2 ^ (E + 1120)).
  { unfold X, p, E. cbn [scaled]. rewrite HM.
    replace (e + -46 + 1120) with (e + 1074) by lia. ring. }
  assert (HG : grid 46 X = e1 + 1120).
  { unfold grid. rewrite HX, Z.log2_mul_pow2 by (unfold E; lia). lia. }
  assert (HU : rne X (grid 46 X) = rne (Z.pos M) (e1 - E)).
  { rewrite HG, HX. replace (e1 + 1120) with (e1 - E + (E + 1120)) by lia.
    apply rne_scale; unfold E; lia. }
  assert (HR : rounded 46 X = rne (Z.pos M) (e1 - E) * 2 ^ (e1 + 1120)).
  { unfold rounded. rewrite HU, HG. reflexivity. }
  assert (HXle : X <= 100 * 2 ^ 1120).
  { destruct (scaled_fraction m e He Hm) as [_ Hs]. fold p in Hs.
    unfold X. replace 1120 with (46 + 1074) by lia.
    rewrite Z.pow_add_r by lia. change (2 ^ 46) with 70368744177664.
    set (a := 2 ^ 1074) in *. clearbody a. lia. }
  assert (HRle : 0 <= rounded 46 X <= 100 * 2 ^ 1120).
  { split.
    - apply rounded_nonneg; [lia|]. rewrite HX.
      apply Z.mul_nonneg_nonneg; [lia|apply Z.pow_nonneg; lia].
    - unfold rounded. rewrite HG.
      replace (100 * 2 ^ 1120) with (100 * 2 ^ (- e1) * 2 ^ (e1 + 1120)).
      2:{ rewrite <- Z.mul_assoc, <- Z.pow_add_r by lia. do 2 f_equal. lia. }
      apply Z.mul_le_mono_nonneg_r; [apply Z.pow_nonneg; lia|].
      rewrite <- HG. apply rne_le_grid; [rewrite HG; lia|].
      rewrite HG, <- Z.mul_assoc, <- Z.pow_add_r by lia.
      replace (- e1 + (e1 + 1120)) with 1120 by lia. exact HXle. }
  split; [|apply percent_Z_of_rounded; exact HRle].
  rewrite Hmul. unfold percent_Z. fold X. rewrite HR.
  destruct (Hbra Hlt ltac:(lia)) as [[HU0 ->]|(m2 & e2 & -> & He2 & Hv)].
  - rewrite HU0, Z.mul_0_l, Z.add_0_l.
    rewrite Z.div_small; [reflexivity|].
    split; [apply Z.pow_nonneg; lia|apply Z.pow_lt_mono_r; lia].
  - rewrite <- Hv. cbn [Math.round].
    replace (0 <=? e2) with false by (symmetry; apply Z.leb_gt; lia).
    cbv zeta.
    set (h := 2 ^ (- e2 - 1)).
    replace ((Z.pos m2 * 2 ^ (e2 - e1) * 2 ^ (e1 + 1120) + 2 ^ 1119) / 2 ^ 1120)
      with ((Z.pos m2 + h) / (2 * h)); [reflexivity|].
    assert (Hh : 0 < h) by (apply Z.pow_pos_nonneg; lia).
    assert (Ht : 0 < 2 ^ (e2 + 1120)) by (apply Z.pow_pos_nonneg; lia).
    rewrite <- (Z.div_mul_cancel_r (Z.pos m2 + h) (2 * h) (2 ^ (e2 + 1120))) by lia.
    f_equal.
    + rewrite Z.mul_add_distr_r. f_equal.
      * rewrite <- Z.mul_assoc, <- Z.pow_add_r by lia. do 2 f_equal. lia.
      * unfold h. rewrite <- Z.pow_add_r by lia. f_equal. lia.
    + unfold h. rewrite <- (Z.pow_succ_r 2 (- e2 - 1)) by lia.
      rewrite <- Z.pow_add_r by lia. f_equal. lia.
Qed.

Lemma percent_zero (s : bool) :
  percent (S754_zero s) = S754_zero s /\ percent_Z (S754_zero s) = 0.
Proof.
  split.
  - unfold percent, Number_mul. rewrite Number_of_Z_100. destruct s; reflexivity.
  - unfold percent_Z. cbn [scaled]. rewrite Z.mul_0_r.
    change (rounded 46 0) with 0. rewrite Z.add_0_l.
    apply Z.div_small.
    split; [apply Z.pow_nonneg; lia|apply Z.pow_lt_mono_r; lia].
Qed.

(** [Math.round (p * 100)] for a fraction [p] is the integer [percent_Z p],
    between 0 and 100; a zero carries the sign of [p]. *)
Lemma percent_spec (p : Number) :
  is_fraction p = true ->
  percent p = (if percent_Z p =? 0 then S754_zero (sign_of p)
               else Number_of_Z (percent_Z p)) /\
  0 <= percent_Z p <= 100.
Proof.
  intros Hp.
  destruct (is_fraction_cases p Hp) as [[s ->]|(m & e & -> & He & Hc & Hm)].
  - destruct (percent_zero s) as [-> ->]. cbn. split; [reflexivity|lia].
  - exact (percent_finite m e He Hc Hm).
Qed.

Lemma scaled_nonneg (p : Number) : 0 <= scaled p.
Proof.
  destruct p as [| | |[] m e]; cbn [scaled]; try lia.
Qed.

(** The published percentage grows with the fraction. *)
Lemma percent_Z_mono (p q : Number) :
  is_fraction p = true -> is_fraction q = true ->
  Number_le p q = true -> percent_Z p <= percent_Z q.
Proof.
  intros Hp Hq Hle. pose proof (Number_le_scaled p q Hp Hq Hle) as Hs.
  pose proof (scaled_nonneg p) as H0.
  unfold percent_Z. apply Z.div_le_mono; [apply Z.pow_pos_nonneg; lia|].
  apply Z.add_le_mono_r.
  destruct (Z.eq_dec (scaled p) 0) as [E|NE].
  - rewrite E, Z.mul_0_r. change (rounded 46 0) with 0.
    apply rounded_nonneg; lia.
  - apply rounded_mono; lia.
Qed.

End Percent.

(** ** How close the percentage is to the exact product *)

Section Nearness.
Local Open Scope Z_scope.

(** Rounding to a grid moves a value by at most half a step. *)
Lemma rne_error (X n : Z) :
  0 <= n ->
  2 * (rne X n * 2 ^ n - X) <= 2 ^ n /\ 2 * (X - rne X n * 2 ^ n) <= 2 ^ n.
Proof.
  intros Hn. destruct (rne_cases X n Hn) as (q & r & HX & Hr & Hc).
  assert (Hg : 0 < 2 ^ n) by (apply Z.pow_pos_nonneg; lia).
  set (g := 2 ^ n) in *. clearbody g.
  destruct Hc as [[H ->]|[[H ->]|[H [[->| ->] _]]]]; nia.
Qed.

(** The exact product [100 * p] of a fraction, in units of [2^-1120]. *)
Lemma exact_product_bounds (p : Number) :
  is_fraction p = true ->
  0 <= 7036874417766400 * scaled p <= 100 * 2 ^ 1120.
Proof.
  intros Hp. split; [pose proof (scaled_nonneg p); lia|].
  assert (Hs : scaled p <= 2 ^ 1074).
  { destruct (is_fraction_cases p Hp) as [[s ->]|(m & e & -> & He & _ & Hm)].
    - cbn [scaled]. apply Z.pow_nonneg; lia.
    - apply (scaled_fraction m e He Hm). }
  replace 1120 with (46 + 1074) by lia. rewrite Z.pow_add_r by lia.
  change (2 ^ 46) with 70368744177664.
  set (a := 2 ^ 1074) in *. clearbody a. lia.
Qed.

(** [percent_Z p] is [100 * p] rounded half up, but for the rounding of the
    product to binary64, which moves it by at most [2^-47]:
    [100 p - 1/2 - 2^-47 < percent_Z p <= 100 p + 1/2 + 2^-47], written in
    units of [2^-1120]. *)
Lemma percent_Z_near (p : Number) :
  is_fraction p = true ->
  2 ^ 1120 * percent_Z p
    <= 7036874417766400 * scaled p + 2 ^ 1119 + 2 ^ 1073 /\
  7036874417766400 * scaled p + 2 ^ 1119
    < 2 ^ 1120 * (percent_Z p + 1) + 2 ^ 1073.
Proof.
  intros Hp. destruct (exact_product_bounds p Hp) as [HX0 HX1].
  unfold percent_Z. set (X := 7036874417766400 * scaled p) in *.
  clearbody X.
  assert (HG : 46 <= grid 46 X <= 1074).
  { unfold grid. split; [lia|].
    destruct (Z.eq_dec X 0) as [->|NE]; [cbn; lia|].
    assert (Z.log2 X < 1127); [|lia].
    apply Z.log2_lt_pow2; [lia|].
    replace 1127 with (7 + 1120) by lia. rewrite Z.pow_add_r by lia.
    change (2 ^ 7) with 128.
    assert (0 < 2 ^ 1120) by (apply Z.pow_pos_nonneg; lia).
    set (a := 2 ^ 1120) in *. clearbody a. lia. }
  destruct (rne_error X (grid 46 X) ltac:(lia)) as [He1 He2].
  fold (rounded 46 X) in He1, He2.
  assert (Hstep : 2 ^ grid 46 X <= 2 * 2 ^ 1073).
  { rewrite <- (Z.pow_succ_r 2 1073) by lia. apply Z.pow_le_mono_r; lia. }
  assert (HA : 0 < 2 ^ 1120) by (apply Z.pow_pos_nonneg; lia).
  pose proof (Z.div_mod (rounded 46 X + 2 ^ 1119) (2 ^ 1120) ltac:(lia)) as Hd.
  pose proof (Z.mod_pos_bound (rounded 46 X + 2 ^ 1119) (2 ^ 1120) HA) as Hm.
  set (n := (rounded 46 X + 2 ^ 1119) / 2 ^ 1120) in *.
  set (r := (rounded 46 X + 2 ^ 1119) mod 2 ^ 1120) in *.
  set (R := rounded 46 X) in *. set (g := 2 ^ grid 46 X) in *.
  set (A := 2 ^ 1120) in *. set (B := 2 ^ 1119) in *. set (C := 2 ^ 1073) in *.
  clearbody n r R g A B C. lia.
Qed.

End Nearness.

(** ** Progress reporting *)

Section Progress.
Local Open Scope Z_scope.

Lemma in_percentages (n : Z) : 0 <= n <= 100 -> In n percentages.
Proof.
  intros Hn. unfold percentages. apply in_map_iff.
  exists (Z.to_nat n). split; [lia|]. apply in_seq. lia.
Qed.

Lemma percentages_ordered :
  forallb (fun n => forallb (fun n' =>
     (n' <? n) || Number_le (Number_of_Z n) (Number_of_Z n')) percentages)
    percentages = true.
Proof. vm_compute. reflexivity. Qed.

Lemma percentages_above_zero :
  forallb (fun n => Number_le (S754_zero true) (Number_of_Z n)
                    && Number_eq (Number_of_Z n) (Number_of_Z n)) percentages
  = true.
Proof. vm_compute. reflexivity. Qed.

Lemma Number_of_Z_le (n n' : Z) :
  0 <= n -> n <= n' -> n' <= 100 ->
  Number_le (Number_of_Z n) (Number_of_Z n') = true.
Proof.
  intros H0 Hle H100. pose proof percentages_ordered as H.
  rewrite forallb_forall in H. specialize (H n (in_percentages n ltac:(lia))).
  rewrite forallb_forall in H. specialize (H n' (in_percentages n' ltac:(lia))).
  apply orb_true_iff in H as [H|H]; [apply Z.ltb_lt in H; lia|exact H].
Qed.

(** Integers in range compare as Numbers the way they compare as integers. *)
Lemma shows_le (v w : Number) (n n' : Z) :
  shows v n -> shows w n' -> 0 <= n -> n <= n' -> n' <= 100 ->
  Number_le v w = true.
Proof.
  intros Hv Hw H0 Hle H100.
  pose proof percentages_above_zero as Hz. rewrite forallb_forall in Hz.
  destruct Hv as [->|[-> ->]]; destruct Hw as [->|[-> ->]].
  - apply Number_of_Z_le; assumption.
  - assert (n = 0) by lia. subst n. reflexivity.
  - specialize (Hz n' (in_percentages n' ltac:(lia))).
    apply andb_true_iff in Hz as [Hz _]. exact Hz.
  - reflexivity.
Qed.

Lemma shows_percentage (v : Number) (n : Z) :
  shows v n -> 0 <= n <= 100 -> is_percentage v.
Proof.
  intros Hv Hn. exists n. split; [exact Hn|].
  destruct Hv as [->|[-> ->]]; [|reflexivity].
  pose proof percentages_above_zero as Hz. rewrite forallb_forall in Hz.
  specialize (Hz n (in_percentages n Hn)).
  apply andb_true_iff in Hz as [_ Hz]. exact Hz.
Qed.

Lemma percent_shows (p : Number) :
  is_fraction p = true ->
  shows (percent p) (percent_Z p) /\ 0 <= percent_Z p <= 100.
Proof.
  intros Hp. destruct (percent_spec p Hp) as [Hv Hn]. split; [|exact Hn].
  rewrite Hv. destruct (Z.eqb_spec (percent_Z p) 0) as [E|NE].
  - rewrite E. destruct (sign_of p); [right; split; reflexivity|left; reflexivity].
  - left; reflexivity.
Qed.

Lemma logger_recognizing (m : Tesseract.LoggerMessage) (s : Sys) :
  recognizing m = true ->
  logger m s = setProgress (percent (Tesseract.progress m)) s.
Proof. unfold logger, recognizing. intros ->. reflexivity. Qed.

Lemma logger_other (m : Tesseract.LoggerMessage) (s : Sys) :
  recognizing m = false -> logger m s = (tt, s).
Proof. unfold logger, recognizing. intros ->. reflexivity. Qed.

Lemma recognizing_status (m : Tesseract.LoggerMessage) :
  recognizing m = true <-> Tesseract.status m = "recognizing text"%string.
Proof. unfold recognizing. apply String.eqb_eq. Qed.

Lemma fractions_sorted_Z (ps : list Number) :
  Forall (fun p => is_fraction p = true) ps ->
  Sorted (fun p q => Number_le p q = true) ps ->
  StronglySorted Z.le (map percent_Z ps).
Proof.
  intros Hf Hs. apply Sorted_StronglySorted; [intros x y z; apply Z.le_trans|].
  induction Hs as [|p ps Hs IH Hhd]; [constructor|].
  apply Forall_cons_iff in Hf as [Hp Hf].
  cbn [map]. constructor; [apply IH; exact Hf|].
  destruct Hhd as [|q ps' Hpq]; [constructor|].
  apply Forall_cons_iff in Hf as [Hq _].
  cbn [map]. constructor. apply percent_Z_mono; assumption.
Qed.

(** The history of [progress] over a run, from a state that shows [n0] no
    greater than any percentage to come. *)
Lemma progress_history_sorted (ms : list Tesseract.LoggerMessage) :
  forall (s : Sys) (n0 : Z),
  shows (progress (ui s)) n0 -> 0 <= n0 <= 100 ->
  Forall (fun p => is_fraction p = true) (fractions ms) ->
  StronglySorted Z.le (map percent_Z (fractions ms)) ->
  Forall (fun n => n0 <= n) (map percent_Z (fractions ms)) ->
  Sorted (fun v w => Number_le v w = true)
    (progress (ui s) :: progress_history ms s) /\
  Forall is_percentage (progress_history ms s).
Proof.
  induction ms as [|m r IH]; intros s n0 Hs Hn Hf Hso Hge.
  - split; repeat constructor.
  - cbn [progress_history]. unfold fractions in *. cbn [List.filter] in *.
    destruct (recognizing m) eqn:Hm.
    + cbn [map] in *.
      apply Forall_cons_iff in Hf as [Hp Hf].
      apply StronglySorted_inv in Hso as [Hso Hall].
      apply Forall_cons_iff in Hge as [Hge0 _].
      destruct (percent_shows _ Hp) as [Hv Hb].
      assert (Hs1 : progress (ui (exec (logger m) s))
                    = percent (Tesseract.progress m)).
      { unfold exec. rewrite (logger_recognizing m s Hm). reflexivity. }
      destruct (IH (exec (logger m) s) (percent_Z (Tesseract.progress m)))
        as [IH1 IH2]; try assumption.
      { rewrite Hs1. exact Hv. }
      rewrite Hs1 in *. split.
      * constructor; [exact IH1|]. constructor.
        apply (shows_le _ _ n0 (percent_Z (Tesseract.progress m))); try assumption; lia.
      * constructor; [|exact IH2]. eapply shows_percentage; eassumption.
    + assert (Hs1 : exec (logger m) s = s).
      { unfold exec. rewrite (logger_other m s Hm). reflexivity. }
      rewrite Hs1. destruct (IH s n0) as [IH1 IH2]; try assumption.
      split.
      * constructor; [exact IH1|]. constructor.
        apply (shows_le _ _ n0 n0); try assumption; lia.
      * constructor; [|exact IH2]. eapply shows_percentage; eassumption.
Qed.

End Progress.

(** C5: a logger message whose status is not "recognizing text" changes
    nothing; one whose status is "recognizing text" writes
    [Math.round (m.progress * 100)] to [progress] and nothing else; for a
    fraction [p] between 0 and 1 that value is the integer [percent_Z p],
    from 0 to 100, which is [100 p] rounded half up but for the rounding of
    the binary64 product, at most [2^-47] (a zero carries the sign of [p]);
    and over a run that starts with [progress] at 0, when the fractions of the
    recognizing messages lie between 0 and 1 and do not decrease, the
    successive values of [progress] do not decrease and are integers from
    0 to 100. A job starts with [progress] at 0. *)
Theorem progress_reporting :
  (forall (s : Sys) (f : File.t),
     file (ui s) = Some f ->
     progress (ui (exec extractText_begin s)) = Number_of_Z 0) /\
  (forall (m : Tesseract.LoggerMessage) (s : Sys),
     Tesseract.status m <> "recognizing text" -> logger m s = (tt, s)) /\
  (forall (m : Tesseract.LoggerMessage) (s : Sys),
     Tesseract.status m = "recognizing text" ->
     logger m s
     = setProgress
         (Math.round (Number_mul (Tesseract.progress m) (Number_of_Z 100))) s) /\
  (forall p : Number,
     is_fraction p = true ->
     is_percentage (Math.round (Number_mul p (Number_of_Z 100))) /\
     Math.round (Number_mul p (Number_of_Z 100))
     = (if (percent_Z p =? 0)%Z then S754_zero (sign_of p)
        else Number_of_Z (percent_Z p)) /\
     (0 <= percent_Z p <= 100)%Z /\
     (2 ^ 1120 * percent_Z p
      <= 7036874417766400 * scaled p + 2 ^ 1119 + 2 ^ 1073)%Z /\
     (7036874417766400 * scaled p + 2 ^ 1119
      < 2 ^ 1120 * (percent_Z p + 1) + 2 ^ 1073)%Z) /\
  (forall (ms : list Tesseract.LoggerMessage) (s : Sys),
     progress (ui s) = Number_of_Z 0 ->
     Forall (fun p => is_fraction p = true) (fractions ms) ->
     Sorted (fun p q => Number_le p q = true) (fractions ms) ->
     Sorted (fun v w => Number_le v w = true)
       (Number_of_Z 0 :: progress_history ms s) /\
     Forall is_percentage (progress_history ms s)).
Proof.
  split; [|split; [|split; [|split]]].
  - intros s f Hf. unfold exec. rewrite (extractText_begin_some s f Hf).
    unfold exec, extractText_begin. rewrite run_bind.
    cbn [get_ui fst snd]. rewrite Hf. reflexivity.
  - intros m s Hne. apply logger_other.
    destruct (recognizing m) eqn:E; [|reflexivity].
    apply recognizing_status in E. contradiction.
  - intros m s He. apply recognizing_status in He.
    exact (logger_recognizing m s He).
  - intros p Hp. destruct (percent_shows p Hp) as [Hv Hn].
    split; [exact (shows_percentage _ _ Hv Hn)|].
    destruct (percent_spec p Hp) as [Hs _].
    split; [exact Hs|]. split; [exact Hn|]. exact (percent_Z_near p Hp).
  - intros ms s H0 Hf Hs. rewrite <- H0.
    apply (progress_history_sorted ms s 0%Z).
    + left. exact H0.
    + lia.
    + exact Hf.
    + apply fractions_sorted_Z; assumption.
    + apply List.Forall_forall. intros n Hin.
      apply in_map_iff in Hin as (p & <- & Hin).
      rewrite List.Forall_forall in Hf. destruct (percent_shows p (Hf p Hin)) as [_ Hn].
      lia.
Qed.

(** A run of three messages on a freshly accepted file: a loading message,
    then recognition at one half and at one; progress goes 0, 0, 50, 100. *)
Lemma progress_reporting_witness :
  (Sorted (fun v w => Number_le v w = true)
     (Number_of_Z 0
        :: progress_history
             (Tesseract.messages (engine_reads (js "abc") scan_png "eng"))
             (exec extractText_begin (exec (handleFile scan_png) initial))) /\
   Forall is_percentage
     (progress_history
        (Tesseract.messages (engine_reads (js "abc") scan_png "eng"))
        (exec extractText_begin (exec (handleFile scan_png) initial)))) /\
  Math.round (Number_mul half (Number_of_Z 100))
    = (if (percent_Z half =? 0)%Z then S754_zero (sign_of half)
       else Number_of_Z (percent_Z half)) /\
  percent_Z half = 50%Z /\
  progress_history
    (Tesseract.messages (engine_reads (js "abc") scan_png "eng"))
    (exec extractText_begin (exec (handleFile scan_png) initial))
  = [Number_of_Z 0; Number_of_Z 50; Number_of_Z 100].
Proof.
  destruct progress_reporting as (_ & _ & _ & Hp & H).
  split; [|split; [|split]].
  - apply H.
    + vm_compute. reflexivity.
    + repeat constructor.
    + repeat constructor.
  - apply (Hp half). vm_compute. reflexivity.
  - vm_compute. reflexivity.
  - vm_compute. reflexivity.
Defined.

(** ** Drag and drop *)

Ltac run_handlers :=
  unfold exec, handle, handleDrag, handleDrop, handleFileInput, handleFile,
    adopt, extractText_settle, copyToClipboard, clipboard_writeText,
    Tesseract_recognize, console_error, toast,
    setDragActive, setFile, setPreviewUrl, setExtractedText,
    setIsProcessing, setLanguage, setProgress,
    URL.createObjectURL, mbind, M_bind, mret, M_ret,
    get_ui, put_ui, get_browser, put_browser;
  cbn -[insert lookup delete decimal String.append size validTypes includes
        Z.gtb Z.mul raised Number_of_Z].

(** What [handleFile] leaves alone, whatever it is given. *)
Lemma handleFile_frame (f : File.t) (s : Sys) :
  dragActive (ui (exec (handleFile f) s)) = dragActive (ui s) /\
  isProcessing (ui (exec (handleFile f) s)) = isProcessing (ui s) /\
  language (ui (exec (handleFile f) s)) = language (ui s) /\
  progress (ui (exec (handleFile f) s)) = progress (ui s).
Proof.
  run_handlers. destruct (negb _); [repeat split|].
  destruct (_ >? _)%Z; repeat split.
Qed.

(** X1: drag events only move the highlight of the drop zone: "dragenter"
    and "dragover" switch [dragActive] on, "dragleave" switches it off, any
    other event type changes nothing, and in every case the rest of the
    component state and the browser are as before. *)
Theorem handleDrag_only_moves_highlight (type : string) (s : Sys) :
  (type = "dragenter" \/ type = "dragover" ->
     dragActive (ui (exec (handleDrag type) s)) = true) /\
  (type = "dragleave" -> dragActive (ui (exec (handleDrag type) s)) = false) /\
  (type <> "dragenter" -> type <> "dragover" -> type <> "dragleave" ->
     handleDrag type s = (tt, s)) /\
  browser (exec (handleDrag type) s) = browser s /\
  file (ui (exec (handleDrag type) s)) = file (ui s) /\
  previewUrl (ui (exec (handleDrag type) s)) = previewUrl (ui s) /\
  extractedText (ui (exec (handleDrag type) s)) = extractedText (ui s) /\
  isProcessing (ui (exec (handleDrag type) s)) = isProcessing (ui s) /\
  language (ui (exec (handleDrag type) s)) = language (ui s) /\
  progress (ui (exec (handleDrag type) s)) = progress (ui s).
Proof.
  unfold exec, handleDrag.
  destruct (String.eqb_spec type "dragenter") as [E1|N1];
    [subst; repeat split; intros; try reflexivity; try discriminate;
     congruence|].
  destruct (String.eqb_spec type "dragover") as [E2|N2];
    [subst; repeat split; intros; try reflexivity; try discriminate;
     congruence|].
  destruct (String.eqb_spec type "dragleave") as [E3|N3];
    [subst; repeat split; intros; try reflexivity; try discriminate;
     try congruence; destruct H; discriminate|].
  cbn [orb]. repeat split; try reflexivity; try contradiction.
  intros [H|H]; contradiction.
Qed.

Lemma handleDrag_only_moves_highlight_witness :
  dragActive (ui (exec (handleDrag "dragover") initial)) = true /\
  dragActive (ui (exec (handleDrag "dragleave")
                    (exec (handleDrag "dragover") initial))) = false /\
  handleDrag "drop" after_abc = (tt, after_abc).
Proof.
  destruct (handleDrag_only_moves_highlight "dragover" initial) as (H1 & _).
  destruct (handleDrag_only_moves_highlight "dragleave"
              (exec (handleDrag "dragover") initial)) as (_ & H2 & _).
  destruct (handleDrag_only_moves_highlight "drop" after_abc)
    as (_ & _ & H3 & _).
  split; [apply H1; right; reflexivity|].
  split; [apply H2; reflexivity|].
  apply H3; discriminate.
Defined.

(** X2: a drop always switches the highlight off; of the files dropped only
    the first is handed to [handleFile], the others are ignored; a drop
    without files does nothing else. The file input behaves the same way,
    without touching the highlight. *)
Theorem drop_takes_first_file (f : File.t) (rest : list File.t) (s : Sys) :
  handleDrop (f :: rest) s = handleDrop [f] s /\
  exec (handleDrop (f :: rest)) s
    = exec (handleFile f) (exec (setDragActive false) s) /\
  dragActive (ui (exec (handleDrop (f :: rest)) s)) = false /\
  exec (handleDrop []) s = exec (setDragActive false) s /\
  handleFileInput (f :: rest) s = handleFile f s /\
  handleFileInput [] s = (tt, s).
Proof.
  split; [reflexivity|]. split; [reflexivity|].
  split; [|repeat split].
  change (exec (handleDrop (f :: rest)) s)
    with (exec (handleFile f) (exec (setDragActive false) s)).
  destruct (handleFile_frame f (exec (setDragActive false) s)) as (-> & _).
  reflexivity.
Qed.

(** ** What every session keeps *)

Lemma decimal_inj (n n' : N) : decimal n = decimal n' -> n = n'.
Proof.
  unfold decimal. intros E.
  assert (Hn : forall k, N.to_uint k <> Decimal.Nil).
  { intros [|p]; [discriminate|]. cbn. apply DecimalPos.Unsigned.to_uint_nonnil. }
  pose proof (NilZero.usu (N.to_uint n) (Hn n)) as H1.
  pose proof (NilZero.usu (N.to_uint n') (Hn n')) as H2.
  rewrite E, H2 in H1. inversion H1 as [H].
  apply DecimalN.Unsigned.to_uint_inj. symmetry. exact H.
Qed.

Lemma fresh_inj (n n' : N) : URL.fresh n = URL.fresh n' -> n = n'.
Proof.
  unfold URL.fresh. intros E. apply decimal_inj.
  inversion E as [H0]. exact H0.
Qed.

Lemma fresh_nonempty (n : N) : String.eqb (URL.fresh n) "" = false.
Proof. reflexivity. Qed.

Lemma consistent_fresh (s : Sys) :
  consistent s ->
  objectURLs (browser s) !! URL.fresh (created (browser s)) = None.
Proof.
  intros H. destruct (objectURLs (browser s) !! _) as [o|] eqn:E; [|reflexivity].
  destruct (live_fresh s H _ _ E) as (k & f & Hk & Hu & _).
  apply fresh_inj in Hu. lia.
Qed.

Lemma consistent_initial : consistent initial.
Proof.
  constructor; try reflexivity.
  - intros url o E. cbn in E. rewrite lookup_empty in E. discriminate.
  - split; reflexivity.
  - constructor.
Qed.

(** A state that differs from a consistent one only outside the fields
    [consistent] reads is consistent. *)
Lemma consistent_frame (s s' : Sys) :
  objectURLs (browser s') = objectURLs (browser s) ->
  created (browser s') = created (browser s) ->
  revoked (browser s') = revoked (browser s) ->
  body (browser s') = body (browser s) ->
  downloads (browser s') = downloads (browser s) ->
  recognitions (browser s') = recognitions (browser s) ->
  file (ui s') = file (ui s) ->
  previewUrl (ui s') = previewUrl (ui s) ->
  raised "File uploaded successfully" (browser s')
    = raised "File uploaded successfully" (browser s) ->
  raised "Download started" (browser s')
    = raised "Download started" (browser s) ->
  consistent s -> consistent s'.
Proof.
  intros Ho Hc Hr Hb Hd Hg Hf Hp Hu Hw [H1 H2 H3 H4 H5 H6 H7].
  constructor; rewrite ?Ho, ?Hc, ?Hr, ?Hb, ?Hd, ?Hg, ?Hf, ?Hp, ?Hu, ?Hw;
    assumption.
Qed.

Lemma adopt_consistent (f : File.t) (s : Sys) :
  passes f -> consistent s -> consistent (exec (adopt f) s).
Proof.
  intros Hf H. pose proof (consistent_fresh s H) as Hfresh.
  destruct H as [H1 H2 H3 H4 H5 H6 H7].
  constructor; run_handlers.
  - intros url o E.
    destruct (decide (URL.fresh (created (browser s)) = url)) as [<-|Hne].
    + rewrite lookup_insert_eq in E. inversion E; subst o.
      exists (created (browser s)), f. repeat split; try assumption; try lia;
        apply Hf.
    + rewrite lookup_insert_ne in E by exact Hne.
      destruct (H1 url o E) as (k & g & Hk & Hu & Ho & Hg).
      exists k, g. repeat split; try assumption; try lia; apply Hg.
  - rewrite lookup_insert_eq. split; [reflexivity|exact Hf].
  - exact H3.
  - rewrite map_size_insert_None by exact Hfresh. lia.
  - rewrite map_size_insert_None by exact Hfresh.
    unfold raised in *. cbn. rewrite H5. reflexivity.
  - unfold raised in *. cbn. exact H6.
  - exact H7.
Qed.

Lemma handleFile_consistent (f : File.t) (s : Sys) :
  consistent s -> consistent (exec (handleFile f) s).
Proof.
  intros H.
  destruct (includes validTypes (File.type f)) eqn:Ht.
  - apply includes_In in Ht.
    destruct (Z_lt_le_dec 10485760 (File.size f)) as [Hs|Hs].
    + unfold exec. rewrite (handleFile_too_large f s Ht Hs).
      eapply consistent_frame; [..|exact H]; reflexivity.
    + unfold exec. rewrite (handleFile_accepts f s Ht Hs).
      apply adopt_consistent; [split; assumption|exact H].
  - apply includes_not_In in Ht.
    unfold exec. rewrite (handleFile_unsupported f s Ht).
    eapply consistent_frame; [..|exact H]; reflexivity.
Qed.

Lemma extractText_begin_consistent (s : Sys) :
  consistent s -> consistent (exec extractText_begin s).
Proof.
  intros H. destruct (file (ui s)) as [f|] eqn:Hf.
  - pose proof (preview_live s H) as Hp. rewrite Hf in Hp.
    assert (E : exec extractText_begin s
                = exec (setIsProcessing true;; setProgress (Number_of_Z 0);;
                        setExtractedText [];;
                        Tesseract_recognize f (language (ui s))) s).
    { unfold exec, extractText_begin. rewrite run_bind.
      cbn [get_ui fst snd]. rewrite Hf. reflexivity. }
    rewrite E. destruct H as [H1 H2 H3 H4 H5 H6 H7].
    constructor; run_handlers; try assumption.
    constructor; [apply Hp|exact H7].
  - unfold exec. rewrite (extractText_begin_none s Hf). exact H.
Qed.

Lemma downloadText_consistent (now : N) (s : Sys) :
  consistent s -> consistent (exec (downloadText now) s).
Proof.
  intros H. destruct (extractedText (ui s)) as [|c T] eqn:ET.
  - assert (E : downloadText now s = (tt, s)).
    { unfold downloadText. rewrite run_bind. cbn [get_ui fst snd].
      rewrite ET. reflexivity. }
    unfold exec. rewrite E. exact H.
  - rewrite (downloadText_run now s) by (rewrite ET; discriminate).
    cbv zeta. pose proof (consistent_fresh s H) as Hfresh.
    destruct H as [H1 H2 H3 H4 H5 H6 H7].
    constructor; cbn -[insert lookup delete size raised];
      rewrite ?(delete_insert_id _ _ _ Hfresh); try assumption.
    + intros url o E. destruct (H1 url o E) as (k & g & Hk & Hu & Ho & Hg).
      exists k, g. repeat split; try assumption; try lia; apply Hg.
    + lia.
    + unfold raised in *. cbn. destruct H6 as [H6 H6']. split; lia.
Qed.

Lemma handle_consistent (e : Event) (s : Sys) :
  consistent s -> consistent (exec (handle e) s).
Proof.
  intros H. destruct e as [type|files|files|code|value| |m|r|allowed|now];
    cbn [handle].
  - unfold exec, handleDrag.
    destruct (_ || _); [eapply consistent_frame; [..|exact H]; reflexivity|].
    destruct (String.eqb _ _); [|exact H].
    eapply consistent_frame; [..|exact H]; reflexivity.
  - destruct files as [|f rest].
    + eapply consistent_frame; [..|exact H]; reflexivity.
    + change (exec (handleDrop (f :: rest)) s)
        with (exec (handleFile f) (exec (setDragActive false) s)).
      apply handleFile_consistent.
      eapply consistent_frame; [..|exact H]; reflexivity.
  - destruct files as [|f rest]; [exact H|].
    apply handleFile_consistent. exact H.
  - eapply consistent_frame; [..|exact H]; reflexivity.
  - eapply consistent_frame; [..|exact H]; reflexivity.
  - change (exec (extractText_begin;; mret ()) s)
      with (snd ((extractText_begin;; mret ()) s)).
    rewrite run_bind. apply extractText_begin_consistent. exact H.
  - destruct (logger_writes_progress m s) as [v Hv].
    unfold exec. rewrite Hv.
    eapply consistent_frame; [..|exact H]; reflexivity.
  - destruct r as [text|error];
      (eapply consistent_frame; [..|exact H]; reflexivity).
  - unfold exec, copyToClipboard. rewrite run_bind. cbn [get_ui fst snd].
    destruct (extractedText (ui s)); [exact H|].
    destruct allowed; (eapply consistent_frame; [..|exact H]; reflexivity).
  - apply downloadText_consistent. exact H.
Qed.

Lemma session_consistent (es : list Event) (s : Sys) :
  consistent s -> consistent (session es s).
Proof.
  revert s. induction es as [|e es IH]; intros s H; [exact H|].
  cbn [session]. apply IH, handle_consistent, H.
Qed.

(** X3: in every session the file the component holds passed both rules of
    [handleFile], and so did the file of every call of the engine: no
    sequence of events gets a file of another type, or larger than
    10,485,760 bytes, to the engine. *)
Theorem engine_only_sees_validated_files (es : list Event) :
  (forall f, file (ui (session es initial)) = Some f ->
     In (File.type f) validTypes /\ (File.size f <= 10485760)%Z) /\
  Forall (fun job => In (File.type (fst job)) validTypes /\
                     (File.size (fst job) <= 10485760)%Z)
    (recognitions (browser (session es initial))).
Proof.
  pose proof (session_consistent es initial consistent_initial) as H.
  split.
  - intros f Hf. pose proof (preview_live _ H) as Hp. rewrite Hf in Hp.
    apply Hp.
  - exact (recognitions_pass _ H).
Qed.

(** X4: in every session the preview URL is empty exactly when no file is
    held, and otherwise is a live object URL that refers to the file held:
    no handler leaves the preview dangling or pointing at another file. *)
Theorem preview_refers_to_current_file (es : list Event) :
  (file (ui (session es initial)) = None <->
   previewUrl (ui (session es initial)) = "") /\
  (forall f, file (ui (session es initial)) = Some f ->
     objectURLs (browser (session es initial))
       !! previewUrl (ui (session es initial)) = Some (OfFile f)).
Proof.
  pose proof (session_consistent es initial consistent_initial) as H.
  pose proof (preview_live _ H) as Hp.
  destruct (file (ui (session es initial))) as [f|] eqn:Hf.
  - destruct Hp as [Hl _]. split.
    + split; [discriminate|]. intros E.
      destruct (live_fresh _ H _ _ Hl) as (k & g & _ & Hu & _).
      rewrite E in Hu. discriminate.
    + intros g Hg. inversion Hg; subst g. exact Hl.
  - split; [split; [intros _; exact Hp|reflexivity]|discriminate].
Qed.

(** X5: in every session the Extract button is rendered exactly when a
    file is held, and a click on it then calls the engine with that file
    and the language selected at that moment: through the button,
    [extractText] never takes its early return. *)
Theorem extract_button_needs_file (es : list Event) :
  (preview_section (render (ui (session es initial))) = None <->
   file (ui (session es initial)) = None) /\
  (forall p, preview_section (render (ui (session es initial))) = Some p ->
     exists f,
       file (ui (session es initial)) = Some f /\
       recognitions (browser (exec extractText_begin (session es initial)))
       = (f, language (ui (session es initial)))
           :: recognitions (browser (session es initial))).
Proof.
  pose proof (session_consistent es initial consistent_initial) as H.
  pose proof (preview_live _ H) as Hp.
  set (s := session es initial) in *. cbn [render preview_section].
  destruct (file (ui s)) as [f|] eqn:Hf.
  - destruct Hp as [Hl _].
    destruct (live_fresh _ H _ _ Hl) as (k & g & _ & Hu & _).
    rewrite Hu, fresh_nonempty. split; [split; discriminate|].
    intros p _. exists f. split; [reflexivity|].
    unfold exec, extractText_begin. rewrite run_bind.
    cbn [get_ui fst snd]. rewrite Hf. reflexivity.
  - rewrite Hp. cbn. split; [split; reflexivity|discriminate].
Qed.

(** X6: object URLs over a session. Every URL ever created is either live
    or released; the live ones are exactly one per accepted file, and each
    refers to a file, so no preview URL is ever released; the released
    ones are exactly one per download; and no anchor is left in the
    document. *)
Theorem object_urls_accounted (es : list Event) :
  (N.of_nat (size (objectURLs (browser (session es initial))))
   + N.of_nat (length (revoked (browser (session es initial)))))%N
    = created (browser (session es initial)) /\
  size (objectURLs (browser (session es initial)))
    = raised "File uploaded successfully" (browser (session es initial)) /\
  (forall url o,
     objectURLs (browser (session es initial)) !! url = Some o ->
     exists f, o = OfFile f) /\
  length (revoked (browser (session es initial)))
    = raised "Download started" (browser (session es initial)) /\
  length (downloads (browser (session es initial)))
    = raised "Download started" (browser (session es initial)) /\
  body (browser (session es initial)) = [].
Proof.
  pose proof (session_consistent es initial consistent_initial) as H.
  destruct H as [H1 H2 H3 H4 H5 [H6 H6'] H7].
  repeat split; try assumption; try lia.
  intros url o E. destruct (H1 url o E) as (k & f & _ & _ & Ho & _).
  exists f. exact Ho.
Qed.

(** ** One handler at a time *)

(** X7: an object URL is created for every accepted file, a PDF included;
    for a PDF the view shows the placeholder with the file's name and does
    not use the URL, for any other accepted type it shows the image at the
    new URL. *)
Theorem accepted_file_preview (f : File.t) (s : Sys) :
  In (File.type f) validTypes -> (File.size f <= 10485760)%Z ->
  objectURLs (browser (exec (handleFile f) s))
    !! URL.fresh (created (browser s)) = Some (OfFile f) /\
  created (browser (exec (handleFile f) s)) = N.succ (created (browser s)) /\
  exists p,
    preview_section (render (ui (exec (handleFile f) s))) = Some p /\
    pane p = (if String.eqb (File.type f) "application/pdf"
              then PdfPlaceholder (File.name f)
              else ImagePreview (URL.fresh (created (browser s)))).
Proof.
  intros Ht Hs. unfold exec. rewrite (handleFile_accepts f s Ht Hs).
  destruct (adopt_state f s) as (Hf & Hp & _ & Ho & Hc & _).
  unfold exec in *. rewrite Ho, Hc. split; [apply lookup_insert_eq|].
  split; [reflexivity|]. cbn [render preview_section].
  rewrite Hp, Hf, fresh_nonempty. eexists. split; reflexivity.
Qed.

Lemma accepted_file_preview_witness :
  objectURLs (browser (exec (handleFile (File.mk "a.pdf" "application/pdf" 10485760)) after_abc))
    !! URL.fresh (created (browser after_abc))
    = Some (OfFile (File.mk "a.pdf" "application/pdf" 10485760)) /\
  created (browser (exec (handleFile (File.mk "a.pdf" "application/pdf" 10485760)) after_abc))
    = N.succ (created (browser after_abc)) /\
  exists p,
    preview_section
      (render (ui (exec (handleFile (File.mk "a.pdf" "application/pdf" 10485760)) after_abc)))
      = Some p /\
    pane p = (if String.eqb
                   (File.type (File.mk "a.pdf" "application/pdf" 10485760))
                   "application/pdf"
              then PdfPlaceholder
                     (File.name (File.mk "a.pdf" "application/pdf" 10485760))
              else ImagePreview (URL.fresh (created (browser after_abc)))).
Proof.
  apply (accepted_file_preview (File.mk "a.pdf" "application/pdf" 10485760)
           after_abc).
  - cbn. right; right; right; left; reflexivity.
  - cbn. discriminate.
Defined.

(** X8: what one extraction does besides the text, the progress and the
    processing flag: exactly one call of the engine, with the file held and
    the language selected when it started; exactly one toast, the success
    one or the failure one; a console line only on failure, carrying the
    engine's error, which the toast does not show; and the file, the
    preview, the language, the object URLs, the clipboard and the downloads
    are as before. *)
Theorem extraction_effects
    (engine : Tesseract.Engine) (s : Sys) (f : File.t) :
  file (ui s) = Some f ->
  let s' := exec (extractText engine) s in
  recognitions (browser s')
    = (f, language (ui s)) :: recognitions (browser s) /\
  (forall text,
     Tesseract.settled (engine f (language (ui s))) = Tesseract.Resolved text ->
     toasts (browser s')
       = {| title := "Text extracted successfully!";
            description := "You can now edit, copy, or download the text.";
            variant := default |} :: toasts (browser s) /\
     console (browser s') = console (browser s)) /\
  (forall error,
     Tesseract.settled (engine f (language (ui s))) = Tesseract.Rejected error ->
     toasts (browser s')
       = {| title := "Extraction failed";
            description :=
              "There was an error processing your image. Please try again.";
            variant := destructive |} :: toasts (browser s) /\
     console (browser s') = ("OCR Error: " ++ error) :: console (browser s)) /\
  file (ui s') = file (ui s) /\
  previewUrl (ui s') = previewUrl (ui s) /\
  language (ui s') = language (ui s) /\
  dragActive (ui s') = dragActive (ui s) /\
  objectURLs (browser s') = objectURLs (browser s) /\
  created (browser s') = created (browser s) /\
  revoked (browser s') = revoked (browser s) /\
  clipboard (browser s') = clipboard (browser s) /\
  downloads (browser s') = downloads (browser s).
Proof.
  intros Hf s'. subst s'.
  destruct (extractText_shape engine s f Hf) as [v ->].
  assert (E : exec extractText_begin s
              = exec (setIsProcessing true;; setProgress (Number_of_Z 0);;
                      setExtractedText [];;
                      Tesseract_recognize f (language (ui s))) s).
  { unfold exec, extractText_begin. rewrite run_bind.
    cbn [get_ui fst snd]. rewrite Hf. reflexivity. }
  rewrite E.
  split; [destruct (Tesseract.settled _); reflexivity|].
  split; [intros text ->; split; reflexivity|].
  split; [intros error ->; split; reflexivity|].
  destruct (Tesseract.settled _); repeat split.
Qed.

Lemma extraction_effects_witness :
  recognitions (browser (exec (extractText engine_fails) after_abc))
    = (scan_png, language (ui after_abc)) :: recognitions (browser after_abc) /\
  console (browser (exec (extractText engine_fails) after_abc))
    = ("OCR Error: " ++ "worker terminated") :: console (browser after_abc).
Proof.
  destruct (extraction_effects engine_fails after_abc scan_png)
    as (H1 & _ & H3 & _).
  - vm_compute; reflexivity.
  - split; [exact H1|].
    destruct (H3 "worker terminated") as [_ Hc]; [vm_compute; reflexivity|].
    exact Hc.
Defined.

(** X9: [downloadText] cleans up after itself from any state: with a
    non-empty buffer, the object URL it created is released and no longer
    live, the anchor it appended is gone from the document, and the
    component state is untouched. *)
Theorem downloadText_cleans_up (now : N) (s : Sys) :
  extractedText (ui s) <> [] ->
  objectURLs (browser (exec (downloadText now) s))
    !! URL.fresh (created (browser s)) = None /\
  revoked (browser (exec (downloadText now) s))
    = URL.fresh (created (browser s)) :: revoked (browser s) /\
  body (browser (exec (downloadText now) s)) = body (browser s) /\
  ui (exec (downloadText now) s) = ui s.
Proof.
  intros Hne. rewrite (downloadText_run now s Hne). cbv zeta.
  cbn [revoked objectURLs browser body ui].
  split; [apply lookup_delete_eq|]. repeat split.
Qed.

Lemma downloadText_cleans_up_witness :
  objectURLs (browser (exec (downloadText 1700000000000) after_abc))
    !! URL.fresh (created (browser after_abc)) = None /\
  revoked (browser (exec (downloadText 1700000000000) after_abc))
    = URL.fresh (created (browser after_abc)) :: revoked (browser after_abc) /\
  body (browser (exec (downloadText 1700000000000) after_abc))
    = body (browser after_abc) /\
  ui (exec (downloadText 1700000000000) after_abc) = ui after_abc.
Proof.
  apply (downloadText_cleans_up 1700000000000 after_abc).
  vm_compute; discriminate.
Defined.

(** X10: accepting a file makes the export unavailable: right after an
    accepted file, whatever text was there before, the Copy and Download
    buttons and the counts are not rendered, and [copyToClipboard] and
    [downloadText] change nothing. *)
Theorem no_export_after_accept
    (f : File.t) (s : Sys) (allowed : bool) (now : N) :
  In (File.type f) validTypes -> (File.size f <= 10485760)%Z ->
  export_buttons (render (ui (exec (handleFile f) s))) = false /\
  counts (render (ui (exec (handleFile f) s))) = None /\
  copyToClipboard allowed (exec (handleFile f) s)
    = (tt, exec (handleFile f) s) /\
  downloadText now (exec (handleFile f) s) = (tt, exec (handleFile f) s).
Proof.
  intros Ht Hs.
  assert (Hx : exec (handleFile f) s = exec (adopt f) s)
    by (unfold exec; rewrite (handleFile_accepts f s Ht Hs); reflexivity).
  rewrite Hx. destruct (adopt_state f s) as (_ & _ & He & _).
  unfold copyToClipboard, downloadText. rewrite !run_bind.
  cbn [get_ui fst snd render export_buttons counts displayed_counts].
  rewrite He. repeat split.
Qed.

Lemma no_export_after_accept_witness :
  export_buttons (render (ui (exec (handleFile photo_jpeg) after_abc))) = false /\
  counts (render (ui (exec (handleFile photo_jpeg) after_abc))) = None /\
  copyToClipboard true (exec (handleFile photo_jpeg) after_abc)
    = (tt, exec (handleFile photo_jpeg) after_abc) /\
  downloadText 5 (exec (handleFile photo_jpeg) after_abc)
    = (tt, exec (handleFile photo_jpeg) after_abc).
Proof.
  apply (no_export_after_accept photo_jpeg after_abc true 5).
  - cbn. left; reflexivity.
  - cbn. discriminate.
Defined.

(** ** Running pages *)

Lemma quiet_handleDrag (type : string) : quiet (handleDrag type).
Proof.
  intros s. unfold exec, handleDrag.
  destruct (_ || _); [repeat split|].
  destruct (String.eqb _ _); repeat split.
Qed.

Lemma quiet_handleFile (f : File.t) : quiet (handleFile f).
Proof.
  intros s. run_handlers. destruct (negb _); [repeat split|].
  destruct (_ >? _)%Z; repeat split.
Qed.

Lemma quiet_handleDrop (files : list File.t) : quiet (handleDrop files).
Proof.
  intros s. destruct files as [|f rest]; [repeat split|].
  change (exec (handleDrop (f :: rest)) s)
    with (exec (handleFile f) (exec (setDragActive false) s)).
  destruct (quiet_handleFile f (exec (setDragActive false) s)) as (-> & -> & ->).
  repeat split.
Qed.

Lemma quiet_handleFileInput (files : list File.t) :
  quiet (handleFileInput files).
Proof.
  intros s. destruct files as [|f rest]; [repeat split|].
  apply quiet_handleFile.
Qed.

Lemma quiet_copyToClipboard (allowed : bool) : quiet (copyToClipboard allowed).
Proof.
  intros s. unfold exec, copyToClipboard. rewrite run_bind.
  cbn [get_ui fst snd]. destruct (extractedText (ui s)); [repeat split|].
  destruct allowed; repeat split.
Qed.

Lemma quiet_downloadText (now : N) : quiet (downloadText now).
Proof.
  intros s. destruct (extractedText (ui s)) as [|c T] eqn:ET.
  - assert (E : downloadText now s = (tt, s)).
    { unfold downloadText. rewrite run_bind. cbn [get_ui fst snd].
      rewrite ET. reflexivity. }
    unfold exec. rewrite E. repeat split.
  - rewrite (downloadText_run now s) by (rewrite ET; discriminate).
    repeat split.
Qed.

Lemma quiet_logger (m : Tesseract.LoggerMessage) : quiet (logger m).
Proof.
  intros s. destruct (logger_writes_progress m s) as [v Hv].
  unfold exec. rewrite Hv. repeat split.
Qed.

(** A quiet handler, run on a page, keeps the invariant. *)
Lemma quiet_step (e : Event) (l : Live) :
  quiet (handle e) -> ui_invariant l ->
  ui_invariant {| sys := exec (handle e) (sys l); pending := pending l |}.
Proof.
  intros Hq [Hc H1 Hflag Hl Hls]. destruct (Hq (sys l)) as (Ep & El & Er).
  constructor; cbn [sys pending].
  - apply handle_consistent, Hc.
  - exact H1.
  - rewrite Ep. exact Hflag.
  - rewrite El. exact Hl.
  - rewrite Er. exact Hls.
Qed.

Lemma ui_step_invariant (l l' : Live) :
  ui_invariant l -> ui_step l l' -> ui_invariant l'.
Proof.
  intros Hinv Hstep.
  destruct Hstep as [l type|l files|l files|l code Hcode|l value Hen
                    |l allowed Hen|l now Hen|l engine p Hp Hen
                    |l before after m ms r Hpend|l before after r Hpend].
  - apply (quiet_step (DragEvent type)); [apply quiet_handleDrag|exact Hinv].
  - apply (quiet_step (DropEvent files)); [apply quiet_handleDrop|exact Hinv].
  - apply (quiet_step (InputChange files));
      [apply quiet_handleFileInput|exact Hinv].
  - destruct Hinv as [Hc H1 Hflag Hl Hls]. constructor; cbn [sys pending].
    + apply (handle_consistent (LanguageChange code)), Hc.
    + exact H1.
    + exact Hflag.
    + exact Hcode.
    + exact Hls.
  - destruct Hinv as [Hc H1 Hflag Hl Hls]. constructor; cbn [sys pending].
    + apply (handle_consistent (TextChange value)), Hc.
    + exact H1.
    + exact Hflag.
    + exact Hl.
    + exact Hls.
  - apply (quiet_step (CopyClick allowed));
      [apply quiet_copyToClipboard|exact Hinv].
  - apply (quiet_step (DownloadClick now));
      [apply quiet_downloadText|exact Hinv].
  - (* the button is rendered and enabled: a file is held, no job pending *)
    destruct Hinv as [Hc H1 Hflag Hl Hls].
    cbn [render preview_section] in Hp.
    destruct (String.eqb (previewUrl (ui (sys l))) "") eqn:Hurl;
      [discriminate|].
    inversion Hp; subst p; clear Hp. cbn [button_disabled] in Hen.
    assert (Hnone : pending l = []).
    { destruct (pending l) as [|j js] eqn:E; [reflexivity|].
      assert (isProcessing (ui (sys l)) = true)
        by (apply Hflag; discriminate).
      congruence. }
    pose proof (preview_live _ Hc) as Hlive.
    destruct (file (ui (sys l))) as [f|] eqn:Hf.
    2:{ rewrite Hlive in Hurl. discriminate. }
    rewrite (extractText_begin_some (sys l) f Hf). cbn [fst].
    assert (E : exec extractText_begin (sys l)
                = exec (setIsProcessing true;; setProgress (Number_of_Z 0);;
                        setExtractedText [];;
                        Tesseract_recognize f (language (ui (sys l)))) (sys l)).
    { unfold exec, extractText_begin. rewrite run_bind.
      cbn [get_ui fst snd]. rewrite Hf. reflexivity. }
    constructor; cbn [sys pending].
    + apply extractText_begin_consistent, Hc.
    + rewrite Hnone. cbn. lia.
    + rewrite E. split; [discriminate|reflexivity].
    + rewrite E. exact Hl.
    + rewrite E. constructor; [exact Hl|exact Hls].
  - destruct (quiet_logger m (sys l)) as (Ep & El & Er).
    destruct Hinv as [Hc H1 Hflag Hl Hls]. constructor; cbn [sys pending].
    + apply (handle_consistent (LoggerCall m)), Hc.
    + rewrite Hpend in H1. rewrite length_app in *. cbn [length] in *. lia.
    + rewrite Ep. split.
      * intros _. destruct before; discriminate.
      * intros _. apply Hflag. rewrite Hpend. destruct before; discriminate.
    + rewrite El. exact Hl.
    + rewrite Er. exact Hls.
  - destruct Hinv as [Hc H1 Hflag Hl Hls].
    assert (Hempty : (before ++ after)%list = []).
    { rewrite Hpend in H1. rewrite length_app in H1. cbn [length] in H1.
      destruct before; [|cbn in H1; lia]. destruct after; [reflexivity|cbn in H1; lia]. }
    constructor; cbn [sys pending].
    + apply (handle_consistent (ExtractSettle r)), Hc.
    + rewrite Hempty. cbn. lia.
    + rewrite Hempty. destruct r; split; try discriminate; intros H; contradiction.
    + destruct r; exact Hl.
    + destruct r; exact Hls.
Qed.

Lemma ui_reachable_invariant (l : Live) : ui_reachable l -> ui_invariant l.
Proof.
  induction 1 as [|l l' _ IH Hstep].
  - constructor; cbn [sys pending].
    + exact consistent_initial.
    + cbn. lia.
    + split; [discriminate|intros H; contradiction].
    + left; reflexivity.
    + constructor.
  - exact (ui_step_invariant l l' IH Hstep).
Qed.

(** X11: on a page driven through its rendered controls, at most one call
    of the engine is pending at any time, and [isProcessing] is true
    exactly while one is: the Extract button is disabled from the click
    until the call settles, so jobs never overlap. *)
Theorem at_most_one_job (l : Live) :
  ui_reachable l ->
  length (pending l) <= 1 /\
  (isProcessing (ui (sys l)) = true <-> pending l <> []) /\
  (pending l <> [] ->
   forall p, preview_section (render (ui (sys l))) = Some p ->
             button_disabled p = true) /\
  (pending l <> [] -> textarea_disabled (render (ui (sys l))) = true).
Proof.
  intros Hr. destruct (ui_reachable_invariant l Hr) as [_ H1 Hflag _ _].
  split; [exact H1|]. split; [exact Hflag|]. split.
  - intros Hp p Hs. apply Hflag in Hp.
    cbn [render preview_section] in Hs.
    destruct (String.eqb _ _); [discriminate|]. inversion Hs. exact Hp.
  - intros Hp. apply Hflag in Hp. exact Hp.
Qed.

(** X12: on a page driven through its rendered controls, the selected
    language is always one of the eight of the menu, and so is the
    language of every call of the engine. *)
Theorem engine_language_is_listed (l : Live) :
  ui_reachable l ->
  In (language (ui (sys l)))
     ["eng"; "hin"; "spa"; "fra"; "deu"; "ara"; "chi_sim"; "jpn"] /\
  Forall (fun job =>
            In (snd job)
               ["eng"; "hin"; "spa"; "fra"; "deu"; "ara"; "chi_sim"; "jpn"])
    (recognitions (browser (sys l))).
Proof.
  intros Hr. destruct (ui_reachable_invariant l Hr) as [_ _ _ Hl Hls].
  split; [exact Hl|exact Hls].
Qed.

Lemma at_most_one_job_witness :
  length (pending page_extracting) <= 1 /\
  (isProcessing (ui (sys page_extracting)) = true
   <-> pending page_extracting <> []) /\
  (pending page_extracting <> [] ->
   forall p, preview_section (render (ui (sys page_extracting))) = Some p ->
             button_disabled p = true) /\
  (pending page_extracting <> [] ->
   textarea_disabled (render (ui (sys page_extracting))) = true).
Proof.
  apply (at_most_one_job page_extracting).
  apply (reach_step page_dropped).
  - apply (reach_step page_loaded); [apply reach_initial|].
    unfold page_dropped. apply step_drop.
  - unfold page_extracting.
    eapply step_extract; [vm_compute; reflexivity|reflexivity].
Defined.

Lemma engine_language_is_listed_witness :
  In (language (ui (sys page_extracting)))
     ["eng"; "hin"; "spa"; "fra"; "deu"; "ara"; "chi_sim"; "jpn"] /\
  Forall (fun job =>
            In (snd job)
               ["eng"; "hin"; "spa"; "fra"; "deu"; "ara"; "chi_sim"; "jpn"])
    (recognitions (browser (sys page_extracting))).
Proof.
  apply (engine_language_is_listed page_extracting).
  apply (reach_step page_dropped).
  - apply (reach_step page_loaded); [apply reach_initial|].
    unfold page_dropped. apply step_drop.
  - unfold page_extracting.
    eapply step_extract; [vm_compute; reflexivity|reflexivity].
Defined.

(** X13: the word count under the text area, for any non-empty text: the
    number of white-space-delimited non-empty tokens, plus one if the text
    starts with white space, plus one if it ends with white space; the
    character count is the number of code units. *)
Theorem displayed_counts_formula (T : jsstring) :
  T <> [] ->
  counts (render (showing T))
  = Some (word_tokens T + leading_space T + trailing_space T, length T).
Proof.
  intros HT. cbn [render counts].
  destruct (displayed_counts (showing T)) as [[w c]|] eqn:E.
  - rewrite (displayed_words T w c E).
    rewrite (displayed_characters (showing T) w c E). reflexivity.
  - unfold displayed_counts, showing in E.
    cbn [exec setExtractedText ui extractedText] in E.
    destruct T; [contradiction|discriminate].
Qed.

Lemma displayed_counts_formula_witness :
  counts (render (showing [32; 104; 105; 32; 32; 121; 111; 117; 10]%N))
  = Some (word_tokens [32; 104; 105; 32; 32; 121; 111; 117; 10]%N
          + leading_space [32; 104; 105; 32; 32; 121; 111; 117; 10]%N
          + trailing_space [32; 104; 105; 32; 32; 121; 111; 117; 10]%N,
          length [32; 104; 105; 32; 32; 121; 111; 117; 10]%N).
Proof.
  apply (displayed_counts_formula [32; 104; 105; 32; 32; 121; 111; 117; 10]%N).
  discriminate.
Defined.
